(** * Server reflection (reflection/serverreflection.go)

    A shallow embedding of the reflection resolver of grpc-go: the descriptor
    decoder, the three caches of [serverReflectionServer], the name and
    extension resolvers, and the request loop [ServerReflectionInfo].

    Conventions of the embedding.
    - A Go return [(T, error)] is a [result T]: [return x, nil] is [Ok x] and
      [return nil, err] is [Err err].  Every return statement of the file has
      one of these two shapes.
    - The methods mutate the maps of the receiver; they are functions from the
      receiver's state to an [outcome]: the returned value with the state
      after the call, or [Panic] (a run-time panic of [reflect.Type.Elem]).
    - The packages the file imports (proto, reflect, gzip, ioutil, fmt, the
      stream) are collaborators: what they answer is a field of [Env] or of
      the stream script.  [fmt.Printf] to standard output is not modelled. *)

From Stdlib Require Import ZArith.
From Stdlib.Strings Require Import Byte.
From stdpp Require Import base option list gmap strings countable fin_maps.

Set Default Proof Using "Type".
Open Scope Z_scope.

(** ** Data *)

Definition bytes := list byte.

(** [reflect.Type].  A defined type is known by its name; [*T] and [[]T] are
    the composite kinds the file takes apart with [Elem]. *)
Inductive rtype : Type :=
| Named (name : string)
| Ptr (elem : rtype)
| Slice (elem : rtype).

Fixpoint rtype_code (t : rtype) : list bool * string :=
  match t with
  | Named n => ([], n)
  | Ptr e => let '(l, n) := rtype_code e in (true :: l, n)
  | Slice e => let '(l, n) := rtype_code e in (false :: l, n)
  end.

Fixpoint rtype_of_code (l : list bool) (n : string) : rtype :=
  match l with
  | [] => Named n
  | true :: l' => Ptr (rtype_of_code l' n)
  | false :: l' => Slice (rtype_of_code l' n)
  end.

#[global] Instance rtype_eq_dec : EqDecision rtype.
Proof. solve_decision. Defined.

#[global] Instance rtype_countable : Countable rtype.
Proof.
  refine (inj_countable' rtype_code (fun c => rtype_of_code c.1 c.2) _).
  intros t; induction t as [n | e IH | e IH]; simpl; [done | |];
    destruct (rtype_code e) as [l n]; simpl in *; by rewrite IH.
Defined.

(** [reflect.PtrTo(t)]. *)
Definition PtrTo (t : rtype) : rtype := Ptr t.

(** [t.Elem()]: the element type of a pointer or slice type; on any other
    kind [Elem] panics ([None]). *)
Definition Elem (t : rtype) : option rtype :=
  match t with
  | Named _ => None
  | Ptr e => Some e
  | Slice e => Some e
  end.

(** [proto.ExtensionDesc]; only [ExtensionType] is read.  It is an
    [interface{}]: [reflect.TypeOf] gives its dynamic type, nil for a nil
    interface.  Extension numbers are [int32] values, kept as integers: the
    file only compares and copies them. *)
Record ExtensionDesc := { ExtensionType : option rtype }.

(** [reflect.TypeOf(i).Elem()]: calling [Elem] on the nil [reflect.Type]
    panics as well. *)
Definition TypeOf_Elem (i : option rtype) : option rtype :=
  match i with
  | None => None
  | Some t => Elem t
  end.

(** Errors.  [fmt.Errorf(format, args...)] and [grpc.Errorf(code, format,
    args...)] keep their format and arguments; the text is rendered by
    [Error]. *)
Inductive error : Type :=
| io_EOF
| Errorf (format : string) (args : list fmtarg)
| rpcError (code : Z) (format : string) (args : list fmtarg)
| foreign (msg : string)
with fmtarg : Type :=
| ArgString (v : string)
| ArgInt32 (v : Z)
| ArgType (v : rtype)
| ArgError (v : error)
| ArgNil.

(** A Go [(T, error)] return. *)
Inductive result (A : Type) : Type :=
| Ok (a : A)
| Err (e : error).
Arguments Ok {A} a.
Arguments Err {A} e.

(** [codes.InvalidArgument], [codes.NotFound], [codes.Unimplemented]. *)
Module codes.
Definition InvalidArgument : Z := 3.
Definition NotFound : Z := 5.
Definition Unimplemented : Z := 12.
End codes.

(** The value the [Metadata] method of [grpc.Server] returns: an
    [interface{}] that is nil, a [[]byte], or something else. *)
Inductive metadata : Type :=
| MetaBytes (enc : bytes)
| MetaOther.

Record grpc_Server := { Metadata : string -> option metadata }.

(** ** Messages of the reflection service *)

(** Modelled from the spec: the request and response messages of package
    [rpb] (section 6 of the specification); the generated code is not part of
    the sources.  A request carries a host and at most one of five kinds; a
    response echoes the host and the request and carries at most one of three
    kinds. *)
Record ExtensionRequest := {
  ContainingType : string;
  ExtensionNumber : Z;
}.

Inductive ServerReflectionRequest_MessageRequest : Type :=
| FileByFilename (name : string)
| FileContainingSymbol (name : string)
| FileContainingExtension (req : ExtensionRequest)
| AllExtensionNumbersOfType (name : string)
| ListServices.

Record ServerReflectionRequest := {
  Host : string;
  MessageRequest : option ServerReflectionRequest_MessageRequest;
}.

Inductive ServerReflectionResponse_MessageResponse : Type :=
| FileDescriptorResponse (FileDescriptorProto : list bytes)
| AllExtensionNumbersResponse (BaseTypeName : string) (ExtensionNumber : list Z)
| ErrorResponse (ErrorCode : Z) (ErrorMessage : string).

Record ServerReflectionResponse := {
  ValidHost : string;
  OriginalRequest : ServerReflectionRequest;
  MessageResponse : option ServerReflectionResponse_MessageResponse;
}.

(** What one [stream.Recv()] gives: a request, or an error ([io_EOF] when the
    peer has closed the stream). *)
Inductive recv : Type :=
| RecvMsg (in_ : ServerReflectionRequest)
| RecvErr (err : error).

Section Reflection.

(** [dpb.FileDescriptorProto]: the file never looks inside one. *)
Context {FileDescriptorProto : Type}.

(** ** The collaborators *)
Record Env := {
  (** [proto.MessageType(name)], nil when the name is not registered. *)
  proto_MessageType : string -> option rtype;
  (** [proto.FileDescriptor(name)], nil when the file is not registered. *)
  proto_FileDescriptor : string -> option bytes;
  (** [proto.RegisteredExtensions(m)], by the dynamic type of [m]: a Go map
      from extension numbers to descriptors, none of them nil.  The order in
      which a range visits it is not specified. *)
  proto_RegisteredExtensions : rtype -> gmap Z ExtensionDesc;
  (** [proto.Unmarshal(raw, fd)]: what [fd] holds after the call, and the
      error. *)
  proto_Unmarshal : bytes -> FileDescriptorProto * option error;
  (** [proto.Marshal(fd)]. *)
  proto_Marshal : FileDescriptorProto -> result bytes;
  (** [gzip.NewReader(bytes.NewReader(b))]: the error, if any. *)
  gzip_NewReader : bytes -> option error;
  (** [ioutil.ReadAll(r)] for the gzip reader over [b]: the bytes read so
      far (never a nil slice) and the error. *)
  ioutil_ReadAll : bytes -> bytes * option error;
  (** Whether the zero value of the type asserts to [protoMessage], and then
      what its [Descriptor()] returns. *)
  as_protoMessage : rtype -> option (bytes * list Z);
  (** Whether the zero value of the type asserts to [proto.Message]. *)
  as_proto_Message : rtype -> bool;
  (** [fmt.Sprintf]. *)
  fmt_Sprintf : string -> list fmtarg -> string;
}.

(** [err.Error()]. *)
Definition Error (E : Env) (e : error) : string :=
  match e with
  | io_EOF => "EOF"
  | Errorf f args => fmt_Sprintf E f args
  | rpcError c f args =>
      fmt_Sprintf E "rpc error: code = %d desc = %q"
        [ArgInt32 c; ArgString (fmt_Sprintf E f args)]
  | foreign msg => msg
  end.

(** ** The receiver *)
Record serverReflectionServer := {
  s_ : grpc_Server;
  typeToNameMap : gmap rtype string;
  nameToTypeMap : gmap string rtype;
  typeToFileDescMap : gmap rtype FileDescriptorProto;
}.

(** [InstallOnServer] builds the receiver with three empty maps. *)
Definition InstallOnServer (s : grpc_Server) : serverReflectionServer :=
  {| s_ := s;
     typeToNameMap := ∅;
     nameToTypeMap := ∅;
     typeToFileDescMap := ∅ |}.

Definition set_typeToNameMap (st : rtype) (name : string)
    (s : serverReflectionServer) : serverReflectionServer :=
  {| s_ := s_ s;
     typeToNameMap := <[st := name]> (typeToNameMap s);
     nameToTypeMap := nameToTypeMap s;
     typeToFileDescMap := typeToFileDescMap s |}.

Definition set_nameToTypeMap (name : string) (st : rtype)
    (s : serverReflectionServer) : serverReflectionServer :=
  {| s_ := s_ s;
     typeToNameMap := typeToNameMap s;
     nameToTypeMap := <[name := st]> (nameToTypeMap s);
     typeToFileDescMap := typeToFileDescMap s |}.

Definition set_typeToFileDescMap (st : rtype) (fd : FileDescriptorProto)
    (s : serverReflectionServer) : serverReflectionServer :=
  {| s_ := s_ s;
     typeToNameMap := typeToNameMap s;
     nameToTypeMap := nameToTypeMap s;
     typeToFileDescMap := <[st := fd]> (typeToFileDescMap s) |}.

(** What a method call leaves behind. *)
Inductive outcome (A : Type) : Type :=
| Done (a : A) (s : serverReflectionServer)
| Panic.
Arguments Done {A} a s.
Arguments Panic {A}.

Definition M (A : Type) : Type := serverReflectionServer -> outcome A.

Definition ret {A} (a : A) : M A := fun s => Done a s.

Definition bind {A B} (m : M A) (k : A -> M B) : M B :=
  fun s => match m s with
           | Done a s' => k a s'
           | Panic => Panic
           end.

Definition modify (f : serverReflectionServer -> serverReflectionServer)
    : M unit :=
  fun s => Done tt (f s).

Definition gets {A} (f : serverReflectionServer -> A) : M A :=
  fun s => Done (f s) s.

Definition panic {A} : M A := fun _ => Panic.

Notation "'let*' x ':=' m 'in' k" := (bind m (fun x => k))
  (at level 10, x name, m at level 100, k at level 200).
Notation "'run' m 'in' k" := (bind m (fun _ => k))
  (at level 10, m at level 100, k at level 200).

(** ** Descriptor decoder *)

Definition decompress (E : Env) (b : bytes) : option bytes :=
  match gzip_NewReader E b with
  | Some _ => None
  | None =>
      match ioutil_ReadAll E b with
      | (_, Some _) => None
      | (out, None) => Some out
      end
  end.

Definition decodeFileDesc (E : Env) (enc : bytes)
    : result FileDescriptorProto :=
  match decompress E enc with
  | None => Err (Errorf "failed to decompress enc" [])
  | Some raw =>
      match proto_Unmarshal E raw with
      | (_, Some err) => Err (Errorf "bad descriptor: %v" [ArgError err])
      | (fd, None) => Ok fd
      end
  end.

(** ** Resolvers *)

Definition fileDescForType (E : Env) (st : rtype)
    : M (result (FileDescriptorProto * list Z)) :=
  match as_protoMessage E (PtrTo st) with
  | None =>
      ret (Err (Errorf "failed to create message from type: %v" [ArgType st]))
  | Some (enc, idxs) =>
      let* cached := gets (fun s => typeToFileDescMap s !! st) in
      match cached with
      | Some fd => ret (Ok (fd, idxs))
      | None =>
          match decodeFileDesc E enc with
          | Err err => ret (Err err)
          | Ok fd =>
              run modify (set_typeToFileDescMap st fd) in
              ret (Ok (fd, idxs))
          end
      end
  end.

Definition typeForName (E : Env) (name : string) : M (result rtype) :=
  let* cached := gets (fun s => nameToTypeMap s !! name) in
  match cached with
  | Some st => ret (Ok st)
  | None =>
      match proto_MessageType E name with
      | None => ret (Err (Errorf "unknown type: %q" [ArgString name]))
      | Some pt =>
          match Elem pt with
          | None => panic
          | Some st =>
              run modify (set_typeToNameMap st name) in
              run modify (set_nameToTypeMap name st) in
              let* r := fileDescForType E st in
              match r with
              | Ok (fd, _) =>
                  run modify (set_typeToFileDescMap st fd) in ret (Ok st)
              | Err _ => ret (Ok st)
              end
          end
      end
  end.

(** The range loop of [fileDescContainingExtension], over the entries of the
    map in the order the range visits them: the first entry whose key is
    [ext], nil when there is none. *)
Fixpoint findExtension (ext : Z) (entries : list (Z * ExtensionDesc))
    : option ExtensionDesc :=
  match entries with
  | [] => None
  | (id, desc) :: rest =>
      if Z.eqb id ext then Some desc else findExtension ext rest
  end.

Definition fileDescContainingExtension (E : Env) (st : rtype) (ext : Z)
    : M (result FileDescriptorProto) :=
  if as_proto_Message E (PtrTo st) then
    match findExtension ext
            (map_to_list (proto_RegisteredExtensions E (PtrTo st))) with
    | None =>
        ret (Err (Errorf
          "failed to find registered extension for extension number %v"
          [ArgInt32 ext]))
    | Some extDesc =>
        match TypeOf_Elem (ExtensionType extDesc) with
        | None => panic
        | Some extT =>
            let* cached := gets (fun s => typeToFileDescMap s !! extT) in
            match cached with
            | Some fd => ret (Ok fd)
            | None =>
                let* r := fileDescForType E extT in
                match r with
                | Err err => ret (Err err)
                | Ok (fd, _) => ret (Ok fd)
                end
            end
        end
    end
  else
    ret (Err (Errorf "failed to create message from type: %v" [ArgType st])).

(** The range loop of [allExtensionNumbersForType]: [out] starts as the nil
    slice (the empty list) and every key is appended, in the order of the
    range. *)
Definition appendKeys (entries : list (Z * ExtensionDesc)) : list Z :=
  fold_left (fun out entry => out ++ [entry.1]) entries [].

Definition allExtensionNumbersForType (E : Env) (st : rtype)
    : result (list Z) :=
  if as_proto_Message E (PtrTo st) then
    Ok (appendKeys (map_to_list (proto_RegisteredExtensions E (PtrTo st))))
  else
    Err (Errorf "failed to create message from type: %v" [ArgType st]).

Definition fileDescWireFormatByFilename (E : Env) (name : string)
    : result bytes :=
  match proto_FileDescriptor E name with
  | None => Err (Errorf "unknown file: %v" [ArgString name])
  | Some enc =>
      match decodeFileDesc E enc with
      | Err err => Err err
      | Ok fd =>
          match proto_Marshal E fd with
          | Err err => Err err
          | Ok b => Ok b
          end
      end
  end.

(** The first half of [fileDescWireFormatContainingSymbol]: the value of the
    local [fd] (nil when neither branch assigned it), or the error of an
    early return. *)
Definition symbolFileDesc (E : Env) (name : string)
    : M (result (option FileDescriptorProto)) :=
  let* r := typeForName E name in
  match r with
  | Ok st =>
      let* r' := fileDescForType E st in
      match r' with
      | Err err => ret (Err err)
      | Ok (fd, _) => ret (Ok (Some fd))
      end
  | Err _ =>
      let* meta := gets (fun s => Metadata (s_ s) name) in
      match meta with
      | Some (MetaBytes enc) =>
          match decodeFileDesc E enc with
          | Err err => ret (Err err)
          | Ok fd => ret (Ok (Some fd))
          end
      | Some MetaOther => ret (Ok None)
      | None => ret (Ok None)
      end
  end.

Definition fileDescWireFormatContainingSymbol (E : Env) (name : string)
    : M (result bytes) :=
  let* r := symbolFileDesc E name in
  match r with
  | Err err => ret (Err err)
  | Ok (Some fd) =>
      match proto_Marshal E fd with
      | Err err => ret (Err err)
      | Ok b => ret (Ok b)
      end
  | Ok None => ret (Err (Errorf "unknown symbol: %v" [ArgString name]))
  end.

Definition fileDescWireFormatContainingExtension (E : Env)
    (typeName : string) (extNum : Z) : M (result bytes) :=
  let* r := typeForName E typeName in
  match r with
  | Err err => ret (Err err)
  | Ok st =>
      let* r' := fileDescContainingExtension E st extNum in
      match r' with
      | Err err => ret (Err err)
      | Ok fd =>
          match proto_Marshal E fd with
          | Err err => ret (Err err)
          | Ok b => ret (Ok b)
          end
      end
  end.

Definition allExtensionNumbersForTypeName (E : Env) (name : string)
    : M (result (list Z)) :=
  let* r := typeForName E name in
  match r with
  | Err err => ret (Err err)
  | Ok st =>
      match allExtensionNumbersForType E st with
      | Err err => ret (Err err)
      | Ok extNums => ret (Ok extNums)
      end
  end.

(** ** The request loop *)

Definition withMessageResponse (out : ServerReflectionResponse)
    (r : ServerReflectionResponse_MessageResponse) : ServerReflectionResponse :=
  {| ValidHost := ValidHost out;
     OriginalRequest := OriginalRequest out;
     MessageResponse := Some r |}.

(** The body of the loop between [Recv] and [Send]: the response [out] as it
    stands after the switch, or the error the default case returns. *)
Definition serveRequest (E : Env) (in_ : ServerReflectionRequest)
    : M (result ServerReflectionResponse) :=
  let out := {| ValidHost := Host in_;
                OriginalRequest := in_;
                MessageResponse := None |} in
  match MessageRequest in_ with
  | Some (FileByFilename name) =>
      match fileDescWireFormatByFilename E name with
      | Err err =>
          ret (Ok (withMessageResponse out
                     (ErrorResponse codes.NotFound (Error E err))))
      | Ok b => ret (Ok (withMessageResponse out (FileDescriptorResponse [b])))
      end
  | Some (FileContainingSymbol name) =>
      let* r := fileDescWireFormatContainingSymbol E name in
      match r with
      | Err err =>
          ret (Ok (withMessageResponse out
                     (ErrorResponse codes.NotFound (Error E err))))
      | Ok b => ret (Ok (withMessageResponse out (FileDescriptorResponse [b])))
      end
  | Some (FileContainingExtension req) =>
      let typeName := ContainingType req in
      let extNum := ExtensionNumber req in
      let* r := fileDescWireFormatContainingExtension E typeName extNum in
      match r with
      | Err err =>
          ret (Ok (withMessageResponse out
                     (ErrorResponse codes.NotFound (Error E err))))
      | Ok b => ret (Ok (withMessageResponse out (FileDescriptorResponse [b])))
      end
  | Some (AllExtensionNumbersOfType name) =>
      let* r := allExtensionNumbersForTypeName E name in
      match r with
      | Err err =>
          ret (Ok (withMessageResponse out
                     (ErrorResponse codes.NotFound (Error E err))))
      | Ok extNums =>
          ret (Ok (withMessageResponse out
                     (AllExtensionNumbersResponse name extNums)))
      end
  | Some ListServices =>
      ret (Ok (withMessageResponse out
                 (ErrorResponse codes.Unimplemented
                    "list_services not implemented")))
  | None =>
      ret (Err (rpcError codes.InvalidArgument "invalid MessageRequest: %v"
                  [ArgNil]))
  end.

(** [stream.Send(out)]: the transport answers with an error or nil, given
    what it has delivered so far. *)
Definition Sender : Type :=
  list ServerReflectionResponse -> ServerReflectionResponse -> option error.

(** [ServerReflectionInfo(stream)].  The stream is the script [recvs] of what
    the successive [Recv] calls give (a script that has run out gives
    [io.EOF]), the transport [send], and the responses [sent] so far.  The
    result is the error the method returns (nil on a clean end) with the
    responses delivered. *)
Fixpoint ServerReflectionInfo (E : Env) (send : Sender) (recvs : list recv)
    (sent : list ServerReflectionResponse)
    : M (option error * list ServerReflectionResponse) :=
  match recvs with
  | [] => ret (None, sent)
  | RecvErr io_EOF :: _ => ret (None, sent)
  | RecvErr err :: _ => ret (Some err, sent)
  | RecvMsg in_ :: rest =>
      let* r := serveRequest E in_ in
      match r with
      | Err err => ret (Some err, sent)
      | Ok out =>
          match send sent out with
          | Some err => ret (Some err, sent)
          | None => ServerReflectionInfo E send rest (sent ++ [out])
          end
      end
  end.

(** The rest of an iteration once the switch has left [out]: the [Send], its
    error check, and the next iterations. *)
Definition sendThenLoop (E : Env) (send : Sender) (rest : list recv)
    (sent : list ServerReflectionResponse) (out : ServerReflectionResponse)
    : M (option error * list ServerReflectionResponse) :=
  match send sent out with
  | Some err => ret (Some err, sent)
  | None => ServerReflectionInfo E send rest (sent ++ [out])
  end.

(** ** Reachable states *)

(** The calls that can change the receiver. *)
Inductive call : Type :=
| call_fileDescForType (st : rtype)
| call_typeForName (name : string)
| call_fileDescContainingExtension (st : rtype) (ext : Z)
| call_fileDescWireFormatContainingSymbol (name : string)
| call_fileDescWireFormatContainingExtension (typeName : string) (extNum : Z)
| call_allExtensionNumbersForTypeName (name : string)
| call_ServerReflectionInfo (send : Sender) (recvs : list recv).

Definition after {A} (o : outcome A) : option serverReflectionServer :=
  match o with
  | Done _ s => Some s
  | Panic => None
  end.

(** The state a call leaves, when it returns. *)
Definition exec (E : Env) (c : call) (s : serverReflectionServer)
    : option serverReflectionServer :=
  match c with
  | call_fileDescForType st => after (fileDescForType E st s)
  | call_typeForName name => after (typeForName E name s)
  | call_fileDescContainingExtension st ext =>
      after (fileDescContainingExtension E st ext s)
  | call_fileDescWireFormatContainingSymbol name =>
      after (fileDescWireFormatContainingSymbol E name s)
  | call_fileDescWireFormatContainingExtension typeName extNum =>
      after (fileDescWireFormatContainingExtension E typeName extNum s)
  | call_allExtensionNumbersForTypeName name =>
      after (allExtensionNumbersForTypeName E name s)
  | call_ServerReflectionInfo send recvs =>
      after (ServerReflectionInfo E send recvs [] s)
  end.

(** The states of a receiver installed by [InstallOnServer] after any
    sequence of calls. *)
Inductive reachable (E : Env) (g : grpc_Server)
    : serverReflectionServer -> Prop :=
| reachable_install : reachable E g (InstallOnServer g)
| reachable_call c s s' :
    reachable E g s -> exec E c s = Some s' -> reachable E g s'.

(** The receiver changes only inside [typeForName] and [fileDescForType]:
    every other method reaches the maps through calls of these two. *)
Inductive evolves (E : Env)
    : serverReflectionServer -> serverReflectionServer -> Prop :=
| evolves_refl s : evolves E s s
| evolves_typeForName name r s s' s'' :
    typeForName E name s = Done r s' -> evolves E s' s'' -> evolves E s s''
| evolves_fileDescForType st r s s' s'' :
    fileDescForType E st s = Done r s' -> evolves E s' s'' -> evolves E s s''.

(** ** Predicates on the caches *)

(** Every name the name cache knows is the name the type cache gives back. *)
Definition names_consistent (s : serverReflectionServer) : Prop :=
  forall name t,
    nameToTypeMap s !! name = Some t -> typeToNameMap s !! t = Some name.

(** Every type the type cache knows is the type the name cache gives back. *)
Definition types_consistent (s : serverReflectionServer) : Prop :=
  forall t name,
    typeToNameMap s !! t = Some name -> nameToTypeMap s !! name = Some t.

(** Every entry of the name cache is an answer of the registry. *)
Definition names_registered (E : Env) (s : serverReflectionServer) : Prop :=
  forall name t,
    nameToTypeMap s !! name = Some t ->
    exists pt, proto_MessageType E name = Some pt /\ Elem pt = Some t.

(** The registry gives no type two names. *)
Definition registry_injective (E : Env) : Prop :=
  forall n1 n2 pt1 pt2 st,
    proto_MessageType E n1 = Some pt1 -> proto_MessageType E n2 = Some pt2 ->
    Elem pt1 = Some st -> Elem pt2 = Some st -> n1 = n2.

(** The resolution of a lookup request fails with [err]. *)
Inductive resolution_fails (E : Env) (s : serverReflectionServer)
    : ServerReflectionRequest_MessageRequest -> error ->
      serverReflectionServer -> Prop :=
| fails_FileByFilename name err :
    fileDescWireFormatByFilename E name = Err err ->
    resolution_fails E s (FileByFilename name) err s
| fails_FileContainingSymbol name err s' :
    fileDescWireFormatContainingSymbol E name s = Done (Err err) s' ->
    resolution_fails E s (FileContainingSymbol name) err s'
| fails_FileContainingExtension req err s' :
    fileDescWireFormatContainingExtension E (ContainingType req)
      (ExtensionNumber req) s = Done (Err err) s' ->
    resolution_fails E s (FileContainingExtension req) err s'
| fails_AllExtensionNumbersOfType name err s' :
    allExtensionNumbersForTypeName E name s = Done (Err err) s' ->
    resolution_fails E s (AllExtensionNumbersOfType name) err s'.

(** The response of the loop to [in_] that carries an error. *)
Definition errorOut (in_ : ServerReflectionRequest) (code : Z) (msg : string)
    : ServerReflectionResponse :=
  {| ValidHost := Host in_;
     OriginalRequest := in_;
     MessageResponse := Some (ErrorResponse code msg) |}.

End Reflection.

Arguments Env : clear implicits.
Arguments serverReflectionServer : clear implicits.
Arguments outcome : clear implicits.
Arguments M : clear implicits.
Arguments call : clear implicits.
Arguments Done {_ A} a s.
Arguments Panic {_ A}.

(** ** A small process to run the model on

    One registered message type [pkg.Foo] with one extension (number 100,
    carrying a [pkg.Ext]), a type [pkg.Bad] whose encoded descriptor is
    corrupt, a type [pkg.Old] generated without a [Descriptor] method, a
    scalar type [int32], one registered file and three services.
    A descriptor is represented by the name of its file. *)
Module Sample.

Definition Foo : rtype := Named "pkg.Foo".
Definition Ext : rtype := Named "pkg.Ext".
Definition Bad : rtype := Named "pkg.Bad".
Definition Old : rtype := Named "pkg.Old".
Definition int32 : rtype := Named "int32".

Definition gz (payload : bytes) : bytes := x1f :: x8b :: payload.

Definition encFoo : bytes := gz [x01].
Definition encExt : bytes := gz [x02].
Definition encTorn : bytes := gz [x01; xff].
Definition encBad : bytes := [x00; x00].

Definition MessageType (name : string) : option rtype :=
  if String.eqb name "pkg.Foo" then Some (Ptr Foo)
  else if String.eqb name "pkg.Ext" then Some (Ptr Ext)
  else if String.eqb name "pkg.Bad" then Some (Ptr Bad)
  else if String.eqb name "pkg.Old" then Some (Ptr Old)
  else None.

Definition FileDescriptor (name : string) : option bytes :=
  if String.eqb name "foo.proto" then Some encFoo else None.

Definition RegisteredExtensions (t : rtype) : gmap Z ExtensionDesc :=
  if decide (t = Ptr Foo)
  then {[ 100 := {| ExtensionType := Some (Ptr Ext) |} ]}
  else ∅.

Definition Unmarshal (raw : bytes) : string * option error :=
  match raw with
  | [x01] => ("foo.proto"%string, None)
  | [x02] => ("ext.proto"%string, None)
  | x01 :: _ => ("foo.proto"%string, Some (foreign "proto: unexpected EOF"))
  | _ => (""%string, Some (foreign "proto: bad wiretype"))
  end.

Definition Marshal (fd : string) : result bytes :=
  if String.eqb fd "foo.proto" then Ok [x0a; x01]
  else if String.eqb fd "ext.proto" then Ok [x0a; x02]
  else Err (foreign "proto: required field not set").

Definition NewReader (b : bytes) : option error :=
  match b with
  | x1f :: x8b :: _ => None
  | _ => Some (foreign "gzip: invalid header")
  end.

Definition ReadAll (b : bytes) : bytes * option error :=
  match b with
  | x1f :: x8b :: [] => ([], Some (foreign "unexpected EOF"))
  | x1f :: x8b :: payload => (payload, None)
  | _ => ([], Some (foreign "gzip: invalid header"))
  end.

Definition protoMessage (t : rtype) : option (bytes * list Z) :=
  if decide (t = Ptr Foo) then Some (encFoo, [0])
  else if decide (t = Ptr Ext) then Some (encExt, [0])
  else if decide (t = Ptr Bad) then Some (encBad, [0])
  else None.

Definition Message (t : rtype) : bool :=
  bool_decide (t = Ptr Foo) || bool_decide (t = Ptr Ext)
  || bool_decide (t = Ptr Bad) || bool_decide (t = Ptr Old).

Definition Sprintf (format : string) (args : list fmtarg) : string :=
  match args with
  | ArgString v :: _ => format +:+ " " +:+ v
  | _ => format
  end.

Definition E : Env string := {|
  proto_MessageType := MessageType;
  proto_FileDescriptor := FileDescriptor;
  proto_RegisteredExtensions := RegisteredExtensions;
  proto_Unmarshal := Unmarshal;
  proto_Marshal := Marshal;
  gzip_NewReader := NewReader;
  ioutil_ReadAll := ReadAll;
  as_protoMessage := protoMessage;
  as_proto_Message := Message;
  fmt_Sprintf := Sprintf;
|}.

(** The same process after its registry and its codecs have stopped
    answering: every name lookup misses and every decompression fails. *)
Definition E_down : Env string := {|
  proto_MessageType := fun _ => None;
  proto_FileDescriptor := fun _ => None;
  proto_RegisteredExtensions := RegisteredExtensions;
  proto_Unmarshal := fun _ => (""%string, Some (foreign "down"));
  proto_Marshal := Marshal;
  gzip_NewReader := fun _ => Some (foreign "down");
  ioutil_ReadAll := fun _ => ([], Some (foreign "down"));
  as_protoMessage := protoMessage;
  as_proto_Message := Message;
  fmt_Sprintf := Sprintf;
|}.

(** A registry that knows [pkg.Foo] under a second name as well. *)
Definition E_alias : Env string := {|
  proto_MessageType := fun name =>
    if String.eqb name "pkg.FooAlias" then Some (Ptr Foo) else MessageType name;
  proto_FileDescriptor := FileDescriptor;
  proto_RegisteredExtensions := RegisteredExtensions;
  proto_Unmarshal := Unmarshal;
  proto_Marshal := Marshal;
  gzip_NewReader := NewReader;
  ioutil_ReadAll := ReadAll;
  as_protoMessage := protoMessage;
  as_proto_Message := Message;
  fmt_Sprintf := Sprintf;
|}.

Definition server : grpc_Server := {|
  Metadata := fun name =>
    if String.eqb name "pkg.Svc" then Some (MetaBytes encFoo)
    else if String.eqb name "pkg.Torn" then Some (MetaBytes encBad)
    else if String.eqb name "pkg.Odd" then Some MetaOther
    else None
|}.

Definition s0 : serverReflectionServer string := InstallOnServer server.

Definition accept : Sender := fun _ _ => None.

Definition request (k : option ServerReflectionRequest_MessageRequest)
    : ServerReflectionRequest :=
  {| Host := "localhost:50051"; MessageRequest := k |}.

(** The receiver once [pkg.Foo] has been resolved. *)
Definition s_Foo : serverReflectionServer string :=
  set_typeToFileDescMap Foo "foo.proto"
    (set_nameToTypeMap "pkg.Foo" Foo (set_typeToNameMap Foo "pkg.Foo" s0)).

(** The receiver once [pkg.FooAlias] has been resolved after [pkg.Foo]. *)
Definition s_FooAlias : serverReflectionServer string :=
  set_nameToTypeMap "pkg.FooAlias" Foo
    (set_typeToNameMap Foo "pkg.FooAlias" s_Foo).

End Sample.


(** ** A sample session *)
Module SampleSession.

(** A list-services request, then a lookup of a registered file, then the
    end of the stream. *)
Definition script : list recv :=
  [RecvMsg (Sample.request (Some ListServices));
   RecvMsg (Sample.request (Some (FileByFilename "foo.proto")));
   RecvErr io_EOF].

Definition answers : list ServerReflectionResponse :=
  [errorOut (Sample.request (Some ListServices)) codes.Unimplemented
     "list_services not implemented";
   {| ValidHost := "localhost:50051";
      OriginalRequest := Sample.request (Some (FileByFilename "foo.proto"));
      MessageResponse := Some (FileDescriptorResponse [[x0a; x01]]) |}].

(** The two requests alone. *)
Definition ins : list ServerReflectionRequest :=
  [Sample.request (Some ListServices);
   Sample.request (Some (FileByFilename "foo.proto"))].

End SampleSession.

(** ** Further predicates *)

Section Predicates.

Context {FileDescriptorProto : Type}.

(** Every descriptor the cache holds for a type is what decoding the bytes
    of the type's [Descriptor] method gives. *)
Definition descriptors_sound (E : Env FileDescriptorProto)
    (s : serverReflectionServer FileDescriptorProto) : Prop :=
  forall st fd,
    typeToFileDescMap s !! st = Some fd ->
    exists enc idxs,
      as_protoMessage E (PtrTo st) = Some (enc, idxs) /\
      decodeFileDesc E enc = Ok fd.

(** [fileDescForType] without its cache: the type assertion, then the
    decoder on the bytes of [Descriptor]. *)
Definition decodedFileDesc (E : Env FileDescriptorProto) (st : rtype)
    : result (FileDescriptorProto * list Z) :=
  match as_protoMessage E (PtrTo st) with
  | None => Err (Errorf "failed to create message from type: %v" [ArgType st])
  | Some (enc, idxs) =>
      match decodeFileDesc E enc with
      | Err err => Err err
      | Ok fd => Ok (fd, idxs)
      end
  end.

(** The registry holds only types [Elem] accepts: registered message types
    are pointer (or slice) types, and the [ExtensionType] of a registered
    extension is a pointer or a slice. *)
Definition registry_wellformed (E : Env FileDescriptorProto) : Prop :=
  (forall name pt, proto_MessageType E name = Some pt -> is_Some (Elem pt)) /\
  (forall t id desc,
     proto_RegisteredExtensions E t !! id = Some desc ->
     is_Some (TypeOf_Elem (ExtensionType desc))).

End Predicates.

(** The requests a stream delivers before its first [Recv] error. *)
Fixpoint requests (recvs : list recv) : list ServerReflectionRequest :=
  match recvs with
  | RecvMsg in_ :: rest => in_ :: requests rest
  | RecvErr _ :: _ => []
  | [] => []
  end.

(** * Properties *)

Section Properties.

Context {FileDescriptorProto : Type}.
Implicit Types (E : Env FileDescriptorProto).
Implicit Types (s : serverReflectionServer FileDescriptorProto).
Implicit Types (fd : FileDescriptorProto) (st : rtype) (name : string).

Ltac unfold_M := unfold bind, ret, gets, modify, panic in *.

(** ** The decoder *)

Lemma decompress_inv E b out :
  decompress E b = Some out ->
  gzip_NewReader E b = None /\ ioutil_ReadAll E b = (out, None).
Proof.
  unfold decompress.
  destruct (gzip_NewReader E b); [done |].
  destruct (ioutil_ReadAll E b) as [o [e |]]; [done |].
  by intros [= ->].
Qed.

Lemma decompress_fails E b :
  decompress E b = None <->
  is_Some (gzip_NewReader E b) \/ is_Some (ioutil_ReadAll E b).2.
Proof.
  unfold decompress.
  destruct (gzip_NewReader E b) as [e |].
  - split; [intros _; left; eauto | done].
  - destruct (ioutil_ReadAll E b) as [o [e |]]; simpl.
    + split; [intros _; right; eauto | done].
    + split; [done |]. intros [[? [=]] | [? [=]]].
Qed.

Lemma decodeFileDesc_Ok E enc fd :
  decodeFileDesc E enc = Ok fd <->
  exists raw, decompress E enc = Some raw /\ proto_Unmarshal E raw = (fd, None).
Proof.
  unfold decodeFileDesc.
  destruct (decompress E enc) as [raw |].
  - destruct (proto_Unmarshal E raw) as [fd' [e |]] eqn:Hu.
    + split; [done |]. intros (raw' & [= <-] & Hu'). congruence.
    + split.
      * intros [= ->]. eauto.
      * intros (raw' & [= <-] & Hu'). congruence.
  - split; [done |]. by intros (raw & [=] & _).
Qed.

(** ** [fileDescForType] *)

Lemma fileDescForType_eq E st s :
  fileDescForType E st s =
  match as_protoMessage E (PtrTo st) with
  | None =>
      Done (Err (Errorf "failed to create message from type: %v" [ArgType st])) s
  | Some (enc, idxs) =>
      match typeToFileDescMap s !! st with
      | Some fd => Done (Ok (fd, idxs)) s
      | None =>
          match decodeFileDesc E enc with
          | Err err => Done (Err err) s
          | Ok fd => Done (Ok (fd, idxs)) (set_typeToFileDescMap st fd s)
          end
      end
  end.
Proof.
  unfold fileDescForType. unfold_M.
  destruct (as_protoMessage E (PtrTo st)) as [[enc idxs] |]; [| done].
  destruct (typeToFileDescMap s !! st); [done |].
  by destruct (decodeFileDesc E enc).
Qed.

Lemma fileDescForType_returns E st s :
  exists r s', fileDescForType E st s = Done r s'.
Proof.
  rewrite fileDescForType_eq.
  destruct (as_protoMessage E (PtrTo st)) as [[enc idxs] |]; [| eauto].
  destruct (typeToFileDescMap s !! st); [eauto |].
  destruct (decodeFileDesc E enc); eauto.
Qed.

Lemma fileDescForType_Err E st s err s' :
  fileDescForType E st s = Done (Err err) s' -> s' = s.
Proof.
  rewrite fileDescForType_eq.
  destruct (as_protoMessage E (PtrTo st)) as [[enc idxs] |]; [| by intros [= _ <-]].
  destruct (typeToFileDescMap s !! st); [done |].
  destruct (decodeFileDesc E enc); [done | by intros [= _ <-]].
Qed.

Lemma fileDescForType_Ok E st s fd idxs s' :
  fileDescForType E st s = Done (Ok (fd, idxs)) s' ->
  typeToFileDescMap s' !! st = Some fd /\
  (s' = s \/
   typeToFileDescMap s !! st = None /\ s' = set_typeToFileDescMap st fd s).
Proof.
  rewrite fileDescForType_eq.
  destruct (as_protoMessage E (PtrTo st)) as [[enc idxs'] |]; [| done].
  destruct (typeToFileDescMap s !! st) as [fd' |] eqn:Hc.
  - intros [= -> -> <-]. auto.
  - destruct (decodeFileDesc E enc) as [fd' |]; [| done].
    intros [= -> -> <-]. split; [apply lookup_insert_eq | auto].
Qed.

(** A cached descriptor is returned without the registry or the decoder:
    only the method set of the type matters. *)
Lemma fileDescForType_cached E E' st s fd idxs s' :
  as_protoMessage E' (PtrTo st) = as_protoMessage E (PtrTo st) ->
  fileDescForType E st s = Done (Ok (fd, idxs)) s' ->
  fileDescForType E' st s' = Done (Ok (fd, idxs)) s'.
Proof.
  intros HE H. destruct (fileDescForType_Ok _ _ _ _ _ _ H) as [Hfd _].
  revert H. rewrite !fileDescForType_eq, HE.
  destruct (as_protoMessage E (PtrTo st)) as [[enc idxs'] |]; [| done].
  rewrite Hfd.
  destruct (typeToFileDescMap s !! st).
  - by intros [= -> -> <-].
  - destruct (decodeFileDesc E enc); [| done]. by intros [= -> -> <-].
Qed.

(** The name caches and the server are out of reach of [fileDescForType]. *)
Lemma fileDescForType_frame E st s r s' :
  fileDescForType E st s = Done r s' ->
  s_ s' = s_ s /\ typeToNameMap s' = typeToNameMap s /\
  nameToTypeMap s' = nameToTypeMap s /\
  typeToFileDescMap s ⊆ typeToFileDescMap s'.
Proof.
  destruct r as [[fd idxs] | err]; intros H.
  - apply fileDescForType_Ok in H as [_ [-> | [Hn ->]]]; [done |].
    repeat split; try done. by apply insert_subseteq.
  - by apply fileDescForType_Err in H as ->.
Qed.

(** Whether [fileDescForType] fails does not depend on the name caches. *)
Lemma fileDescForType_Err_names E st s s1 err :
  typeToFileDescMap s1 = typeToFileDescMap s ->
  fileDescForType E st s = Done (Err err) s ->
  fileDescForType E st s1 = Done (Err err) s1.
Proof.
  intros Hm. rewrite !fileDescForType_eq, Hm.
  destruct (as_protoMessage E (PtrTo st)) as [[enc idxs] |]; [| by intros [= ->]].
  destruct (typeToFileDescMap s !! st); [done |].
  destruct (decodeFileDesc E enc); [done | by intros [= ->]].
Qed.

(** ** [typeForName] *)

Lemma typeForName_eq E name s :
  typeForName E name s =
  match nameToTypeMap s !! name with
  | Some st => Done (Ok st) s
  | None =>
      match proto_MessageType E name with
      | None => Done (Err (Errorf "unknown type: %q" [ArgString name])) s
      | Some pt =>
          match Elem pt with
          | None => Panic
          | Some st =>
              let s1 := set_nameToTypeMap name st (set_typeToNameMap st name s) in
              match fileDescForType E st s1 with
              | Done (Ok (fd, _)) s2 =>
                  Done (Ok st) (set_typeToFileDescMap st fd s2)
              | Done (Err _) s2 => Done (Ok st) s2
              | Panic => Panic
              end
          end
      end
  end.
Proof.
  unfold typeForName. unfold_M.
  destruct (nameToTypeMap s !! name); [done |].
  destruct (proto_MessageType E name) as [pt |]; [| done].
  destruct (Elem pt) as [st |]; [| done]. simpl.
  destruct (fileDescForType E st _) as [[[fd idxs] | err] s2 |]; done.
Qed.

Lemma set_typeToFileDescMap_id st fd s :
  typeToFileDescMap s !! st = Some fd -> set_typeToFileDescMap st fd s = s.
Proof.
  intros H. destruct s as [g tn nt tf]. unfold set_typeToFileDescMap; simpl in *.
  by rewrite insert_id.
Qed.

(** The three ways [typeForName] returns. *)
Lemma typeForName_cases E name s r s' :
  typeForName E name s = Done r s' ->
  (exists st, nameToTypeMap s !! name = Some st /\ r = Ok st /\ s' = s) \/
  (nameToTypeMap s !! name = None /\ proto_MessageType E name = None /\
   r = Err (Errorf "unknown type: %q" [ArgString name]) /\ s' = s) \/
  (exists pt st r',
     nameToTypeMap s !! name = None /\ proto_MessageType E name = Some pt /\
     Elem pt = Some st /\ r = Ok st /\
     fileDescForType E st
       (set_nameToTypeMap name st (set_typeToNameMap st name s)) = Done r' s').
Proof.
  rewrite typeForName_eq.
  destruct (nameToTypeMap s !! name) as [st |] eqn:Hn.
  { intros [= <- <-]. left. eauto. }
  destruct (proto_MessageType E name) as [pt |] eqn:Hp.
  2:{ intros [= <- <-]. right; left. eauto. }
  destruct (Elem pt) as [st |] eqn:He; [| done]. simpl.
  destruct (fileDescForType E st _) as [[[fd idxs] | err] s2 |] eqn:Hf; [| | done].
  - intros [= <- <-]. right; right. exists pt, st, (Ok (fd, idxs)).
    repeat split; try done.
    apply fileDescForType_Ok in Hf as Hf'. destruct Hf' as [Hfd _].
    by rewrite (set_typeToFileDescMap_id _ _ _ Hfd).
  - intros [= <- <-]. right; right. exists pt, st, (Err err). eauto 10.
Qed.

Lemma typeForName_Ok_cached E name s st s' :
  typeForName E name s = Done (Ok st) s' -> nameToTypeMap s' !! name = Some st.
Proof.
  intros H. apply typeForName_cases in H
    as [(st' & Hn & [= <-] & ->) | [(_ & _ & [=] & _) | (pt & st' & r' & Hn & Hp & He & [= <-] & Hf)]];
    [done |].
  apply fileDescForType_frame in Hf as (_ & _ & -> & _). simpl.
  apply lookup_insert_eq.
Qed.

Lemma typeForName_Err E name s err s' :
  typeForName E name s = Done (Err err) s' ->
  s' = s /\ nameToTypeMap s !! name = None /\ proto_MessageType E name = None /\
  err = Errorf "unknown type: %q" [ArgString name].
Proof.
  intros H. apply typeForName_cases in H
    as [(st' & Hn & [=] & _) | [(Hn & Hp & [= ->] & ->) | (pt & st' & r' & _ & _ & _ & [=] & _)]].
  done.
Qed.

(** A name the name cache holds is answered without the registry. *)
Lemma typeForName_hit E name s st :
  nameToTypeMap s !! name = Some st -> typeForName E name s = Done (Ok st) s.
Proof. intros H. by rewrite typeForName_eq, H. Qed.

(** ** Claims on the decoder and the two caches of a type *)

(** C7: [decodeFileDesc] returns a decoded descriptor or an error and nothing
    in between.  When the decompression fails (the gzip header is refused or
    the read ends in an error, whatever was read by then) the result is the
    error of a failed decompression; when the decompressed bytes fail to
    deserialize, the result is the bad-descriptor error and what
    [proto.Unmarshal] had filled in by then is dropped; a descriptor is
    returned only when both steps succeeded, and then it is the one
    [proto.Unmarshal] built. *)
Theorem decodeFileDesc_all_or_nothing E enc :
  (is_Some (gzip_NewReader E enc) \/ is_Some (ioutil_ReadAll E enc).2 ->
   decompress E enc = None) /\
  (decompress E enc = None ->
   decodeFileDesc E enc = Err (Errorf "failed to decompress enc" [])) /\
  (forall raw partial err,
     decompress E enc = Some raw ->
     proto_Unmarshal E raw = (partial, Some err) ->
     decodeFileDesc E enc = Err (Errorf "bad descriptor: %v" [ArgError err])) /\
  (forall fd,
     decodeFileDesc E enc = Ok fd <->
     exists raw,
       decompress E enc = Some raw /\ proto_Unmarshal E raw = (fd, None)).
Proof.
  split; [apply decompress_fails |].
  split; [by unfold decodeFileDesc; intros -> |].
  split; [| apply decodeFileDesc_Ok].
  intros raw partial err Hd Hu. unfold decodeFileDesc. by rewrite Hd, Hu.
Qed.

(** C10: when the name cache misses and the registry knows the name,
    [typeForName] returns the type with a nil error whatever becomes of the
    eager [fileDescForType] call.  If that call fails, its error is dropped:
    the name is cached, the descriptor cache is left as it was, and a later
    [fileDescForType] on the returned type reports the same error. *)
Theorem typeForName_discards_decode_error E name s pt st :
  nameToTypeMap s !! name = None ->
  proto_MessageType E name = Some pt ->
  Elem pt = Some st ->
  (exists s', typeForName E name s = Done (Ok st) s') /\
  (forall err,
     fileDescForType E st s = Done (Err err) s ->
     typeForName E name s =
       Done (Ok st) (set_nameToTypeMap name st (set_typeToNameMap st name s)) /\
     typeToFileDescMap
       (set_nameToTypeMap name st (set_typeToNameMap st name s)) =
       typeToFileDescMap s /\
     fileDescForType E st
       (set_nameToTypeMap name st (set_typeToNameMap st name s)) =
       Done (Err err)
         (set_nameToTypeMap name st (set_typeToNameMap st name s))).
Proof.
  intros Hn Hp He. split.
  - rewrite typeForName_eq, Hn, Hp, He. simpl.
    destruct (fileDescForType_returns E st
                (set_nameToTypeMap name st (set_typeToNameMap st name s)))
      as ([[fd idxs] | err] & s2 & ->); eauto.
  - intros err Hf.
    assert (fileDescForType E st
              (set_nameToTypeMap name st (set_typeToNameMap st name s)) =
            Done (Err err)
              (set_nameToTypeMap name st (set_typeToNameMap st name s))) as Hf'
      by (by apply (fileDescForType_Err_names E st s)).
    split; [| done].
    rewrite typeForName_eq, Hn, Hp, He. simpl. by rewrite Hf'.
Qed.

(** C4: once a name has been resolved to a type and the type to a file
    descriptor, resolving the name again on the same receiver gives the same
    descriptor from the caches, and leaves the receiver as it is.  The second
    resolution may run against any collaborators [E'] in which the type still
    has its [Descriptor] method: their registry and their decoder are not
    consulted, so it succeeds also when both would fail. *)
Theorem second_resolution_from_cache E E' name s st s1 fd idxs s2 :
  as_protoMessage E' (PtrTo st) = as_protoMessage E (PtrTo st) ->
  typeForName E name s = Done (Ok st) s1 ->
  fileDescForType E st s1 = Done (Ok (fd, idxs)) s2 ->
  typeForName E' name s2 = Done (Ok st) s2 /\
  fileDescForType E' st s2 = Done (Ok (fd, idxs)) s2.
Proof.
  intros HE Hn Hf. split.
  - apply typeForName_hit.
    apply fileDescForType_frame in Hf as (_ & _ & -> & _).
    by apply (typeForName_Ok_cached E name s).
  - by apply (fileDescForType_cached E E' st s1).
Qed.

(** ** Extensions *)

Lemma findExtension_None ext (l : list (Z * ExtensionDesc)) :
  findExtension ext l = None <-> ext ∉ l.*1.
Proof.
  induction l as [| [id d] l IH]; simpl.
  - split; [intros _; apply not_elem_of_nil | done].
  - destruct (Z.eqb_spec id ext) as [-> | Hne].
    + split; [done |]. intros H. destruct H. left.
    + rewrite IH, not_elem_of_cons.
      split; [intros ?; split; [congruence | done] | by intros [_ ?]].
Qed.

Lemma findExtension_Some ext (l : list (Z * ExtensionDesc)) d :
  NoDup l.*1 -> findExtension ext l = Some d <-> (ext, d) ∈ l.
Proof.
  induction l as [| [id d'] l IH]; simpl; intros Hnd.
  - split; [done |]. by intros ?%elem_of_nil.
  - apply NoDup_cons in Hnd as [Hid Hnd].
    destruct (Z.eqb_spec id ext) as [-> | Hne].
    + split.
      * intros [= ->]. left.
      * intros [[= ->] | Hin]%elem_of_cons; [done |].
        destruct Hid. apply list_elem_of_fmap. by exists (ext, d).
    + rewrite (IH Hnd), elem_of_cons.
      split; [auto | intros [[= -> ->] | ?]; done].
Qed.

(** The order in which the range visits the map does not matter: the loop
    finds the entry of the key. *)
Lemma findExtension_range ext (m : gmap Z ExtensionDesc) l :
  l ≡ₚ map_to_list m -> findExtension ext l = m !! ext.
Proof.
  intros Hl.
  assert (NoDup l.*1) as Hnd.
  { rewrite Hl. apply NoDup_fst_map_to_list. }
  destruct (m !! ext) as [d |] eqn:Hm.
  - apply findExtension_Some; [done |].
    rewrite Hl. by apply elem_of_map_to_list.
  - apply findExtension_None. intros ((k & d) & -> & Hin)%list_elem_of_fmap.
    rewrite Hl in Hin. apply elem_of_map_to_list in Hin. simpl in *. congruence.
Qed.

Lemma appendKeys_from (l : list (Z * ExtensionDesc)) (acc : list Z) :
  fold_left (fun out entry => out ++ [entry.1]) l acc = acc ++ l.*1.
Proof.
  revert acc. induction l as [| e l IH]; intros acc; simpl.
  - by rewrite app_nil_r.
  - by rewrite IH, <- app_assoc.
Qed.

Lemma appendKeys_keys (l : list (Z * ExtensionDesc)) : appendKeys l = l.*1.
Proof. unfold appendKeys. by rewrite appendKeys_from. Qed.

Lemma fileDescContainingExtension_not_message E st ext s :
  as_proto_Message E (PtrTo st) = false ->
  fileDescContainingExtension E st ext s =
  Done (Err (Errorf "failed to create message from type: %v" [ArgType st])) s.
Proof. unfold fileDescContainingExtension. by intros ->. Qed.

Lemma allExtensionNumbersForType_not_message E st :
  as_proto_Message E (PtrTo st) = false ->
  allExtensionNumbersForType E st =
  Err (Errorf "failed to create message from type: %v" [ArgType st]).
Proof. unfold allExtensionNumbersForType. by intros ->. Qed.

(** On a message type the answer lists the keys of the extension map, each
    once. *)
Lemma allExtensionNumbersForType_keys E st :
  as_proto_Message E (PtrTo st) = true ->
  exists out,
    allExtensionNumbersForType E st = Ok out /\ NoDup out /\
    forall id, id ∈ out <-> is_Some (proto_RegisteredExtensions E (PtrTo st) !! id).
Proof.
  intros Hm. unfold allExtensionNumbersForType. rewrite Hm, appendKeys_keys.
  eexists; split; [done |]. split; [apply NoDup_fst_map_to_list |].
  intros id. rewrite list_elem_of_fmap. split.
  - intros ([k d] & -> & Hin). apply elem_of_map_to_list in Hin. eauto.
  - intros [d Hd]. exists (id, d). split; [done |]. by apply elem_of_map_to_list.
Qed.

(** C6: for every message type and every number that is not a key of the
    type's registered extensions, [fileDescContainingExtension] returns the
    error of the extension that was not found and no descriptor, leaves the
    receiver as it is and does not panic (a type that is no [proto.Message]
    has no extensions to search: it is refused with an error before the
    search).  When the number is the key of a registered extension, the
    function resolves the extension's value type instead: it returns the
    descriptor the cache holds for the value type, or else the descriptor
    decoded from the bytes of the value type's [Descriptor] method, which it
    caches; only when the value type has no descriptor that decodes does it
    return the error of that resolution, and only when [Elem] refuses the
    extension's [ExtensionType] does it panic. *)
Theorem fileDescContainingExtension_unregistered_or_resolved E st ext s :
  (as_proto_Message E (PtrTo st) = true ->
   proto_RegisteredExtensions E (PtrTo st) !! ext = None ->
   fileDescContainingExtension E st ext s =
   Done (Err (Errorf
                "failed to find registered extension for extension number %v"
                [ArgInt32 ext])) s) /\
  (as_proto_Message E (PtrTo st) = false ->
   fileDescContainingExtension E st ext s =
   Done (Err (Errorf "failed to create message from type: %v" [ArgType st]))
     s) /\
  (forall desc,
     as_proto_Message E (PtrTo st) = true ->
     proto_RegisteredExtensions E (PtrTo st) !! ext = Some desc ->
     (TypeOf_Elem (ExtensionType desc) = None ->
      fileDescContainingExtension E st ext s = Panic) /\
     (forall extT,
        TypeOf_Elem (ExtensionType desc) = Some extT ->
        (forall fd,
           typeToFileDescMap s !! extT = Some fd ->
           fileDescContainingExtension E st ext s = Done (Ok fd) s) /\
        (forall fd idxs,
           typeToFileDescMap s !! extT = None ->
           decodedFileDesc E extT = Ok (fd, idxs) ->
           fileDescContainingExtension E st ext s =
           Done (Ok fd) (set_typeToFileDescMap extT fd s)) /\
        (forall err,
           typeToFileDescMap s !! extT = None ->
           decodedFileDesc E extT = Err err ->
           fileDescContainingExtension E st ext s = Done (Err err) s))).
Proof.
  split; [| split].
  - intros Hm Hnone. unfold fileDescContainingExtension.
    by rewrite Hm, (findExtension_range ext _ _ (reflexivity _)), Hnone.
  - apply fileDescContainingExtension_not_message.
  - intros desc Hm Hsome. split.
    + intros He. unfold fileDescContainingExtension.
      by rewrite Hm, (findExtension_range ext _ _ (reflexivity _)), Hsome, He.
    + intros extT He.
      assert (fileDescContainingExtension E st ext s =
              match typeToFileDescMap s !! extT with
              | Some fd => Done (Ok fd) s
              | None =>
                  match decodedFileDesc E extT with
                  | Ok (fd, _) => Done (Ok fd) (set_typeToFileDescMap extT fd s)
                  | Err err => Done (Err err) s
                  end
              end) as ->.
      { unfold fileDescContainingExtension.
        rewrite Hm, (findExtension_range ext _ _ (reflexivity _)), Hsome, He.
        unfold_M. destruct (typeToFileDescMap s !! extT) eqn:Hc; [done |].
        rewrite fileDescForType_eq, Hc. unfold decodedFileDesc.
        destruct (as_protoMessage E (PtrTo extT)) as [[enc idxs] |]; [| done].
        by destruct (decodeFileDesc E enc). }
      split; [by intros fd -> |].
      split; [by intros fd idxs -> -> | by intros err -> ->].
Qed.

(** C8: on a message type with no registered extension
    [allExtensionNumbersForType] returns the empty list of numbers and a nil
    error. *)
Theorem allExtensionNumbersForType_no_extensions E st :
  as_proto_Message E (PtrTo st) = true ->
  proto_RegisteredExtensions E (PtrTo st) = ∅ ->
  allExtensionNumbersForType E st = Ok [].
Proof.
  intros Hm He. unfold allExtensionNumbersForType.
  by rewrite Hm, He, map_to_list_empty.
Qed.

(** ** Symbols *)

Lemma result_eta {A} (r : result A) :
  match r with Err err => Err err | Ok a => Ok a end = r.
Proof. by destruct r. Qed.

(** C5, as the code has it: [fileDescWireFormatContainingSymbol] first calls
    [typeForName].  When that succeeds the answer comes from
    [fileDescForType] on the type and the metadata of the server is not
    read: a failure there is returned as it is.  Only when [typeForName]
    fails is the metadata read: a byte blob is decoded, and a blob that fails
    to decode returns the decoder's error; the unknown-symbol error is
    returned when the server has no metadata for the name or the metadata is
    no byte blob.  Every failure returns an error without descriptor
    bytes. *)
Theorem fileDescWireFormatContainingSymbol_paths E name s :
  (forall st s1,
     typeForName E name s = Done (Ok st) s1 ->
     fileDescWireFormatContainingSymbol E name s =
     match fileDescForType E st s1 with
     | Done (Ok (fd, _)) s2 => Done (proto_Marshal E fd) s2
     | Done (Err err) s2 => Done (Err err) s2
     | Panic => Panic
     end) /\
  (forall err s1,
     typeForName E name s = Done (Err err) s1 ->
     fileDescWireFormatContainingSymbol E name s =
     match Metadata (s_ s) name with
     | Some (MetaBytes enc) =>
         match decodeFileDesc E enc with
         | Ok fd => Done (proto_Marshal E fd) s
         | Err err' => Done (Err err') s
         end
     | Some MetaOther | None =>
         Done (Err (Errorf "unknown symbol: %v" [ArgString name])) s
     end).
Proof.
  split.
  - intros st s1 Hn. unfold fileDescWireFormatContainingSymbol, symbolFileDesc.
    unfold_M. rewrite Hn.
    destruct (fileDescForType E st s1) as [[[fd idxs] | err] s2 |]; [| done | done].
    by destruct (proto_Marshal E fd).
  - intros err s1 Hn.
    destruct (typeForName_Err _ _ _ _ _ Hn) as (-> & _).
    unfold fileDescWireFormatContainingSymbol, symbolFileDesc.
    unfold_M. rewrite Hn.
    destruct (Metadata (s_ s) name) as [[enc |] |]; [| done | done].
    destruct (decodeFileDesc E enc) as [fd | err']; [| done].
    by destruct (proto_Marshal E fd).
Qed.

(** ** The request loop *)

Lemma serveRequest_recognized E in_ k s :
  MessageRequest in_ = Some k ->
  serveRequest E in_ s = Panic \/
  exists r s',
    serveRequest E in_ s =
      Done (Ok {| ValidHost := Host in_;
                  OriginalRequest := in_;
                  MessageResponse := Some r |}) s'.
Proof.
  intros Hk. unfold serveRequest, withMessageResponse. rewrite Hk. unfold_M.
  destruct k as [name | name | req | name |]; simpl.
  - destruct (fileDescWireFormatByFilename E name); eauto.
  - destruct (fileDescWireFormatContainingSymbol E name s) as [[b | err] s' |];
      eauto.
  - destruct (fileDescWireFormatContainingExtension E _ _ s) as [[b | err] s' |];
      eauto.
  - destruct (allExtensionNumbersForTypeName E name s) as [[b | err] s' |];
      eauto.
  - eauto.
Qed.

Lemma serveRequest_fails E in_ k s err s' :
  MessageRequest in_ = Some k ->
  resolution_fails E s k err s' ->
  serveRequest E in_ s =
  Done (Ok (errorOut in_ codes.NotFound (Error E err))) s'.
Proof.
  intros Hk Hf. unfold serveRequest, withMessageResponse, errorOut.
  rewrite Hk. unfold_M.
  destruct Hf as [name err Hf | name err s' Hf | req err s' Hf | name err s' Hf];
    simpl; by rewrite Hf.
Qed.

Lemma ServerReflectionInfo_step E send in_ rest sent s out s' :
  serveRequest E in_ s = Done (Ok out) s' ->
  ServerReflectionInfo E send (RecvMsg in_ :: rest) sent s =
  sendThenLoop E send rest sent out s'.
Proof.
  intros H. simpl. unfold sendThenLoop. unfold_M. rewrite H.
  by destruct (send sent out).
Qed.

(** C1: a lookup request whose resolution fails with [err] does not end the
    loop: the switch leaves the error response with the not-found code and
    the text of [err], and the loop goes on to [Send] it; a list-services
    request is answered the same way with the unimplemented code.  Once the
    transport has taken the response, the loop reads the next request with
    the response added to those delivered. *)
Theorem resolution_failure_keeps_session_open E send in_ rest sent s :
  (forall k err s',
     MessageRequest in_ = Some k ->
     resolution_fails E s k err s' ->
     ServerReflectionInfo E send (RecvMsg in_ :: rest) sent s =
       sendThenLoop E send rest sent
         (errorOut in_ codes.NotFound (Error E err)) s' /\
     (send sent (errorOut in_ codes.NotFound (Error E err)) = None ->
      ServerReflectionInfo E send (RecvMsg in_ :: rest) sent s =
        ServerReflectionInfo E send rest
          (sent ++ [errorOut in_ codes.NotFound (Error E err)]) s')) /\
  (MessageRequest in_ = Some ListServices ->
   ServerReflectionInfo E send (RecvMsg in_ :: rest) sent s =
     sendThenLoop E send rest sent
       (errorOut in_ codes.Unimplemented "list_services not implemented") s /\
   (send sent
      (errorOut in_ codes.Unimplemented "list_services not implemented") =
      None ->
    ServerReflectionInfo E send (RecvMsg in_ :: rest) sent s =
      ServerReflectionInfo E send rest
        (sent ++
         [errorOut in_ codes.Unimplemented "list_services not implemented"])
        s)).
Proof.
  split.
  - intros k err s' Hk Hf.
    pose proof (serveRequest_fails _ _ _ _ _ _ Hk Hf) as Hs.
    rewrite (ServerReflectionInfo_step _ send _ rest sent _ _ _ Hs).
    split; [done |]. unfold sendThenLoop. by intros ->.
  - intros Hk.
    assert (serveRequest E in_ s =
            Done (Ok (errorOut in_ codes.Unimplemented
                        "list_services not implemented")) s) as Hs.
    { unfold serveRequest. by rewrite Hk. }
    rewrite (ServerReflectionInfo_step _ send _ rest sent _ _ _ Hs).
    split; [done |]. unfold sendThenLoop. by intros ->.
Qed.

(** C3: a request with none of the five kinds set makes the loop return at
    once with an invalid-argument error: nothing is sent for it, the
    receiver is untouched and the rest of the stream is not read. *)
Theorem unrecognized_request_ends_session E send in_ rest sent s :
  MessageRequest in_ = None ->
  ServerReflectionInfo E send (RecvMsg in_ :: rest) sent s =
  Done (Some (rpcError codes.InvalidArgument "invalid MessageRequest: %v"
                [ArgNil]), sent) s.
Proof.
  intros Hk. simpl. unfold serveRequest. unfold_M. by rewrite Hk.
Qed.

(** ** The caches along the calls *)

Lemma evolves_trans E s1 s2 s3 :
  evolves E s1 s2 -> evolves E s2 s3 -> evolves E s1 s3.
Proof.
  induction 1 as [| name r s s' s'' H _ IH | st r s s' s'' H _ IH]; intros H3;
    [done | |].
  - eapply evolves_typeForName; eauto.
  - eapply evolves_fileDescForType; eauto.
Qed.

Lemma evolves_one_typeForName E name s r s' :
  typeForName E name s = Done r s' -> evolves E s s'.
Proof. intros H. eapply evolves_typeForName; [exact H | constructor]. Qed.

Lemma evolves_one_fileDescForType E st s r s' :
  fileDescForType E st s = Done r s' -> evolves E s s'.
Proof. intros H. eapply evolves_fileDescForType; [exact H | constructor]. Qed.

Lemma fileDescContainingExtension_evolves E st ext s r s' :
  fileDescContainingExtension E st ext s = Done r s' -> evolves E s s'.
Proof.
  unfold fileDescContainingExtension. unfold_M.
  destruct (as_proto_Message E (PtrTo st)); [| intros [= _ <-]; constructor].
  destruct (findExtension ext _) as [d |]; [| intros [= _ <-]; constructor].
  destruct (TypeOf_Elem (ExtensionType d)) as [extT |]; [| done].
  destruct (typeToFileDescMap s !! extT); [intros [= _ <-]; constructor |].
  destruct (fileDescForType E extT s) as [[[fd idxs] | err] s1 |] eqn:Hf;
    [| | done]; intros [= _ <-]; by eapply evolves_one_fileDescForType.
Qed.

Lemma fileDescWireFormatContainingSymbol_evolves E name s r s' :
  fileDescWireFormatContainingSymbol E name s = Done r s' -> evolves E s s'.
Proof.
  unfold fileDescWireFormatContainingSymbol, symbolFileDesc. unfold_M.
  destruct (typeForName E name s) as [[st | err] s1 |] eqn:Hn; [| | done].
  - apply evolves_one_typeForName in Hn.
    destruct (fileDescForType E st s1) as [[[fd idxs] | err] s2 |] eqn:Hf;
      [| | done]; apply evolves_one_fileDescForType in Hf.
    + destruct (proto_Marshal E fd); intros [= _ <-]; by eapply evolves_trans.
    + intros [= _ <-]; by eapply evolves_trans.
  - apply evolves_one_typeForName in Hn.
    destruct (Metadata (s_ s1) name) as [[enc |] |]; [| by intros [= _ <-] ..].
    destruct (decodeFileDesc E enc) as [fd |]; [| by intros [= _ <-]].
    by destruct (proto_Marshal E fd); intros [= _ <-].
Qed.

Lemma fileDescWireFormatContainingExtension_evolves E typeName extNum s r s' :
  fileDescWireFormatContainingExtension E typeName extNum s = Done r s' ->
  evolves E s s'.
Proof.
  unfold fileDescWireFormatContainingExtension. unfold_M.
  destruct (typeForName E typeName s) as [[st | err] s1 |] eqn:Hn; [| | done];
    apply evolves_one_typeForName in Hn; [| by intros [= _ <-]].
  destruct (fileDescContainingExtension E st extNum s1) as [[fd | err] s2 |] eqn:Hf;
    [| | done]; apply fileDescContainingExtension_evolves in Hf.
  - destruct (proto_Marshal E fd); intros [= _ <-]; by eapply evolves_trans.
  - intros [= _ <-]; by eapply evolves_trans.
Qed.

Lemma allExtensionNumbersForTypeName_evolves E name s r s' :
  allExtensionNumbersForTypeName E name s = Done r s' -> evolves E s s'.
Proof.
  unfold allExtensionNumbersForTypeName. unfold_M.
  destruct (typeForName E name s) as [[st | err] s1 |] eqn:Hn; [| | done];
    apply evolves_one_typeForName in Hn; [| by intros [= _ <-]].
  by destruct (allExtensionNumbersForType E st); intros [= _ <-].
Qed.

Lemma serveRequest_evolves E in_ s r s' :
  serveRequest E in_ s = Done r s' -> evolves E s s'.
Proof.
  unfold serveRequest. unfold_M.
  destruct (MessageRequest in_) as [[name | name | req | name |] |].
  - destruct (fileDescWireFormatByFilename E name); intros [= _ <-]; constructor.
  - destruct (fileDescWireFormatContainingSymbol E name s)
      as [[b | err] s1 |] eqn:H; [| | done];
      apply fileDescWireFormatContainingSymbol_evolves in H; by intros [= _ <-].
  - destruct (fileDescWireFormatContainingExtension E _ _ s)
      as [[b | err] s1 |] eqn:H; [| | done];
      apply fileDescWireFormatContainingExtension_evolves in H;
      by intros [= _ <-].
  - destruct (allExtensionNumbersForTypeName E name s)
      as [[b | err] s1 |] eqn:H; [| | done];
      apply allExtensionNumbersForTypeName_evolves in H; by intros [= _ <-].
  - intros [= _ <-]; constructor.
  - intros [= _ <-]; constructor.
Qed.

Lemma ServerReflectionInfo_evolves E send recvs sent s r s' :
  ServerReflectionInfo E send recvs sent s = Done r s' -> evolves E s s'.
Proof.
  revert sent s. induction recvs as [| [in_ | err] rest IH]; intros sent s; simpl.
  - intros [= _ <-]; constructor.
  - unfold_M.
    destruct (serveRequest E in_ s) as [[out | err] s1 |] eqn:H; [| | done];
      apply serveRequest_evolves in H; [| by intros [= _ <-]].
    destruct (send sent out); [by intros [= _ <-] |].
    intros H'. apply IH in H'. by eapply evolves_trans.
  - destruct err; intros [= _ <-]; constructor.
Qed.

Lemma exec_evolves E c s s' : exec E c s = Some s' -> evolves E s s'.
Proof.
  destruct c; simpl;
    match goal with |- after ?o = _ -> _ => destruct o as [r s1 |] eqn:H end;
    simpl; intros [=]; subst.
  - by eapply evolves_one_fileDescForType.
  - by eapply evolves_one_typeForName.
  - by eapply fileDescContainingExtension_evolves.
  - by eapply fileDescWireFormatContainingSymbol_evolves.
  - by eapply fileDescWireFormatContainingExtension_evolves.
  - by eapply allExtensionNumbersForTypeName_evolves.
  - by eapply ServerReflectionInfo_evolves.
Qed.

(** What [typeForName] does to the two name caches: nothing, or one pair. *)
Lemma typeForName_name_maps E name s r s' :
  typeForName E name s = Done r s' ->
  typeToNameMap s' = typeToNameMap s /\ nameToTypeMap s' = nameToTypeMap s \/
  exists pt st,
    nameToTypeMap s !! name = None /\ proto_MessageType E name = Some pt /\
    Elem pt = Some st /\
    typeToNameMap s' = <[st := name]> (typeToNameMap s) /\
    nameToTypeMap s' = <[name := st]> (nameToTypeMap s).
Proof.
  intros H. apply typeForName_cases in H
    as [(st & _ & _ & ->) | [(_ & _ & _ & ->) | (pt & st & r' & Hn & Hp & He & _ & Hf)]];
    [by left .. |].
  right. exists pt, st.
  apply fileDescForType_frame in Hf as (_ & -> & -> & _). by simpl.
Qed.

Lemma pair_types_consistent (tn : gmap rtype string) (nt : gmap string rtype)
    st name :
  nt !! name = None ->
  (forall t n, tn !! t = Some n -> nt !! n = Some t) ->
  forall t n,
    <[st := name]> tn !! t = Some n -> <[name := st]> nt !! n = Some t.
Proof.
  intros Hmiss Hc t n. destruct (decide (st = t)) as [-> | Hne].
  - rewrite lookup_insert_eq. intros [= <-]. apply lookup_insert_eq.
  - rewrite lookup_insert_ne by done. intros Ht.
    rewrite lookup_insert_ne; [by apply Hc |].
    intros ->. apply Hc in Ht. congruence.
Qed.

Lemma pair_names_consistent (tn : gmap rtype string) (nt : gmap string rtype)
    st name :
  tn !! st = None ->
  (forall n t, nt !! n = Some t -> tn !! t = Some n) ->
  forall n t,
    <[name := st]> nt !! n = Some t -> <[st := name]> tn !! t = Some n.
Proof.
  intros Hfresh Hc n t. destruct (decide (name = n)) as [-> | Hne].
  - rewrite lookup_insert_eq. intros [= <-]. apply lookup_insert_eq.
  - rewrite lookup_insert_ne by done. intros Hn.
    rewrite lookup_insert_ne; [by apply Hc |].
    intros ->. apply Hc in Hn. congruence.
Qed.

(** With an injective registry the type of a name the cache misses is not
    in the type cache yet. *)
Lemma registered_type_fresh E s name pt st :
  registry_injective E -> types_consistent s -> names_registered E s ->
  nameToTypeMap s !! name = None ->
  proto_MessageType E name = Some pt -> Elem pt = Some st ->
  typeToNameMap s !! st = None.
Proof.
  intros Hinj Ht Hr Hmiss Hp He.
  destruct (typeToNameMap s !! st) as [n0 |] eqn:Hst; [| done].
  apply Ht in Hst. destruct (Hr _ _ Hst) as (pt0 & Hp0 & He0).
  assert (n0 = name) as -> by (by eapply Hinj).
  congruence.
Qed.

Lemma evolves_invariants E s s' :
  evolves E s s' ->
  types_consistent s -> names_registered E s ->
  types_consistent s' /\ names_registered E s' /\
  nameToTypeMap s ⊆ nameToTypeMap s' /\
  dom (typeToNameMap s) ⊆ dom (typeToNameMap s') /\
  (registry_injective E -> names_consistent s ->
   names_consistent s' /\ typeToNameMap s ⊆ typeToNameMap s').
Proof.
  induction 1 as [s | name r s s' s'' H _ IH | st r s s' s'' H _ IH];
    intros Ht Hr.
  - repeat split; done.
  - apply typeForName_name_maps in H
      as [[Htn Hnt] | (pt & st & Hmiss & Hp & He & Htn & Hnt)].
    + unfold types_consistent, names_registered, names_consistent in *.
      rewrite <- Htn, <- Hnt in *. by apply IH.
    + assert (types_consistent s') as Ht'.
      { unfold types_consistent. rewrite Htn, Hnt.
        by apply pair_types_consistent. }
      assert (names_registered E s') as Hr'.
      { intros n t. rewrite Hnt. destruct (decide (name = n)) as [<- | Hne].
        - rewrite lookup_insert_eq. intros [= <-]. eauto.
        - rewrite lookup_insert_ne by done. apply Hr. }
      destruct (IH Ht' Hr') as (IH1 & IH2 & IH3 & IH4 & IH5).
      split; [done |]. split; [done |]. split.
      { etrans; [| exact IH3]. rewrite Hnt. by apply insert_subseteq. }
      split.
      { etrans; [| exact IH4]. rewrite Htn, dom_insert_L. apply union_subseteq_r. }
      intros Hinj Hc.
      pose proof (registered_type_fresh _ _ _ _ _ Hinj Ht Hr Hmiss Hp He)
        as Hfresh.
      destruct IH5 as [IH5 IH6]; [done | |].
      { unfold names_consistent. rewrite Htn, Hnt.
        by apply pair_names_consistent. }
      split; [done |].
      etrans; [| exact IH6]. rewrite Htn. by apply insert_subseteq.
  - apply fileDescForType_frame in H as (_ & Htn & Hnt & _).
    unfold types_consistent, names_registered, names_consistent in *.
    rewrite <- Htn, <- Hnt in *. by apply IH.
Qed.

Lemma InstallOnServer_invariants E g :
  types_consistent (@InstallOnServer FileDescriptorProto g) /\
  names_registered E (InstallOnServer g) /\
  names_consistent (@InstallOnServer FileDescriptorProto g).
Proof.
  unfold types_consistent, names_registered, names_consistent. simpl.
  repeat split; intros ? ?; by rewrite lookup_empty.
Qed.

Lemma reachable_invariants E g s :
  reachable E g s ->
  types_consistent s /\ names_registered E s /\
  (registry_injective E -> names_consistent s).
Proof.
  induction 1 as [| c s s' _ IH Hc].
  - destruct (InstallOnServer_invariants E g) as (? & ? & ?). auto.
  - destruct IH as (Ht & Hr & Hn). apply exec_evolves in Hc.
    destruct (evolves_invariants _ _ _ Hc Ht Hr) as (? & ? & _ & _ & H5).
    split; [done |]. split; [done |]. intros Hinj. by apply H5; auto.
Qed.

(** C9, as the code has it: the two name caches get their entries only as a
    pair inside [typeForName].  At every reachable state each type of
    [typeToNameMap] is mapped back by [nameToTypeMap] from its name, and no
    call removes a key of either map or changes an entry of [nameToTypeMap].
    When the registry gives no type two names, each name of [nameToTypeMap]
    is also mapped back by [typeToNameMap] from its type, and no call changes
    an entry of [typeToNameMap]. *)
Theorem name_caches_consistent E g s :
  reachable E g s ->
  types_consistent s /\
  (forall c s',
     exec E c s = Some s' ->
     nameToTypeMap s ⊆ nameToTypeMap s' /\
     dom (typeToNameMap s) ⊆ dom (typeToNameMap s')) /\
  (registry_injective E ->
   names_consistent s /\
   forall c s', exec E c s = Some s' -> typeToNameMap s ⊆ typeToNameMap s').
Proof.
  intros Hreach. destruct (reachable_invariants _ _ _ Hreach) as (Ht & Hr & Hn).
  split; [done |]. split.
  - intros c s' Hc. apply exec_evolves in Hc.
    by destruct (evolves_invariants _ _ _ Hc Ht Hr) as (_ & _ & ? & ? & _).
  - intros Hinj. split; [by apply Hn |].
    intros c s' Hc. apply exec_evolves in Hc.
    destruct (evolves_invariants _ _ _ Hc Ht Hr) as (_ & _ & _ & _ & H5).
    by apply H5; auto.
Qed.

End Properties.

(** * The claims at concrete inputs *)

Lemma typeForName_discards_decode_error_witness :
  (exists s',
     typeForName Sample.E "pkg.Bad" Sample.s0 = Done (Ok Sample.Bad) s') /\
  fileDescForType Sample.E Sample.Bad Sample.s0 =
    Done (Err (Errorf "failed to decompress enc" [])) Sample.s0.
Proof.
  split; [| reflexivity].
  apply (typeForName_discards_decode_error Sample.E "pkg.Bad" Sample.s0
           (Ptr Sample.Bad) Sample.Bad); reflexivity.
Defined.

Lemma second_resolution_from_cache_witness :
  typeForName Sample.E_down "pkg.Foo" Sample.s_Foo =
    Done (Ok Sample.Foo) Sample.s_Foo /\
  fileDescForType Sample.E_down Sample.Foo Sample.s_Foo =
    Done (Ok ("foo.proto"%string, [0])) Sample.s_Foo.
Proof.
  apply (second_resolution_from_cache Sample.E Sample.E_down "pkg.Foo"
           Sample.s0 Sample.Foo Sample.s_Foo);
    vm_compute; reflexivity.
Defined.

Lemma allExtensionNumbersForType_no_extensions_witness :
  allExtensionNumbersForType Sample.E Sample.Ext = Ok [].
Proof.
  apply (allExtensionNumbersForType_no_extensions Sample.E Sample.Ext);
    reflexivity.
Defined.

(** C5 as stated fails.  [pkg.Old] is a registered type without a
    [Descriptor] method and the server has no metadata for the name: neither
    path yields a descriptor, and the answer is the error of
    [fileDescForType], not the unknown-symbol error.  [pkg.Torn] is no type
    name and its metadata is a blob that does not decode: the answer is the
    decoder's error. *)
Lemma symbol_failure_is_not_always_unknown_symbol :
  (typeForName Sample.E "pkg.Old" Sample.s0 =
     Done (Ok Sample.Old)
       (set_nameToTypeMap "pkg.Old" Sample.Old
          (set_typeToNameMap Sample.Old "pkg.Old" Sample.s0)) /\
   fileDescForType Sample.E Sample.Old
     (set_nameToTypeMap "pkg.Old" Sample.Old
        (set_typeToNameMap Sample.Old "pkg.Old" Sample.s0)) =
     Done (Err (Errorf "failed to create message from type: %v"
                  [ArgType Sample.Old]))
       (set_nameToTypeMap "pkg.Old" Sample.Old
          (set_typeToNameMap Sample.Old "pkg.Old" Sample.s0)) /\
   Metadata Sample.server "pkg.Old" = None /\
   fileDescWireFormatContainingSymbol Sample.E "pkg.Old" Sample.s0 =
     Done (Err (Errorf "failed to create message from type: %v"
                  [ArgType Sample.Old]))
       (set_nameToTypeMap "pkg.Old" Sample.Old
          (set_typeToNameMap Sample.Old "pkg.Old" Sample.s0))) /\
  (typeForName Sample.E "pkg.Torn" Sample.s0 =
     Done (Err (Errorf "unknown type: %q" [ArgString "pkg.Torn"])) Sample.s0 /\
   Metadata Sample.server "pkg.Torn" = Some (MetaBytes Sample.encBad) /\
   decodeFileDesc Sample.E Sample.encBad =
     Err (Errorf "failed to decompress enc" []) /\
   fileDescWireFormatContainingSymbol Sample.E "pkg.Torn" Sample.s0 =
     Done (Err (Errorf "failed to decompress enc" [])) Sample.s0).
Proof. repeat split; vm_compute; reflexivity. Qed.

Lemma unrecognized_request_ends_session_witness :
  ServerReflectionInfo Sample.E Sample.accept
    [RecvMsg (Sample.request None);
     RecvMsg (Sample.request (Some ListServices))] [] Sample.s0 =
  Done (Some (rpcError 3 "invalid MessageRequest: %v" [ArgNil]), []) Sample.s0.
Proof.
  apply (unrecognized_request_ends_session Sample.E Sample.accept
           (Sample.request None)
           [RecvMsg (Sample.request (Some ListServices))] [] Sample.s0).
  reflexivity.
Defined.

Lemma Sample_registry_injective : registry_injective Sample.E.
Proof.
  intros n1 n2 pt1 pt2 st. simpl. unfold Sample.MessageType.
  repeat match goal with
         | |- context [String.eqb ?a ?b] => destruct (String.eqb_spec a b)
         end; subst; try done; intros [= <-] [= <-] [= <-]; done.
Qed.

Lemma name_caches_consistent_witness :
  types_consistent Sample.s_Foo /\
  (forall c s',
     exec Sample.E c Sample.s_Foo = Some s' ->
     nameToTypeMap Sample.s_Foo ⊆ nameToTypeMap s' /\
     dom (typeToNameMap Sample.s_Foo) ⊆ dom (typeToNameMap s')) /\
  (registry_injective Sample.E ->
   names_consistent Sample.s_Foo /\
   forall c s',
     exec Sample.E c Sample.s_Foo = Some s' ->
     typeToNameMap Sample.s_Foo ⊆ typeToNameMap s').
Proof.
  apply (name_caches_consistent Sample.E Sample.server Sample.s_Foo).
  apply (reachable_call Sample.E Sample.server (call_typeForName "pkg.Foo")
           Sample.s0 Sample.s_Foo); [constructor | vm_compute; reflexivity].
Defined.

(** C9 as stated fails when the registry knows a type under two names.
    After [pkg.Foo] and then [pkg.FooAlias] have been resolved, the name
    cache maps [pkg.Foo] to the type while the type cache maps the type to
    [pkg.FooAlias]: the second call has rewritten the entry of the type. *)
Lemma alias_breaks_name_consistency :
  reachable Sample.E_alias Sample.server Sample.s_Foo /\
  exec Sample.E_alias (call_typeForName "pkg.FooAlias") Sample.s_Foo =
    Some Sample.s_FooAlias /\
  reachable Sample.E_alias Sample.server Sample.s_FooAlias /\
  typeToNameMap Sample.s_Foo !! Sample.Foo = Some "pkg.Foo"%string /\
  typeToNameMap Sample.s_FooAlias !! Sample.Foo = Some "pkg.FooAlias"%string /\
  nameToTypeMap Sample.s_FooAlias !! "pkg.Foo"%string = Some Sample.Foo /\
  ~ names_consistent Sample.s_FooAlias /\
  ~ typeToNameMap Sample.s_Foo ⊆ typeToNameMap Sample.s_FooAlias.
Proof.
  assert (reachable Sample.E_alias Sample.server Sample.s_Foo) as H1.
  { apply (reachable_call Sample.E_alias Sample.server
             (call_typeForName "pkg.Foo") Sample.s0 Sample.s_Foo);
      [constructor | vm_compute; reflexivity]. }
  assert (exec Sample.E_alias (call_typeForName "pkg.FooAlias") Sample.s_Foo =
          Some Sample.s_FooAlias) as H2 by (vm_compute; reflexivity).
  assert (typeToNameMap Sample.s_Foo !! Sample.Foo = Some "pkg.Foo"%string)
    as H3 by (vm_compute; reflexivity).
  assert (typeToNameMap Sample.s_FooAlias !! Sample.Foo =
          Some "pkg.FooAlias"%string) as H4 by (vm_compute; reflexivity).
  assert (nameToTypeMap Sample.s_FooAlias !! "pkg.Foo"%string =
          Some Sample.Foo) as H5 by (vm_compute; reflexivity).
  repeat split; try done.
  - by apply (reachable_call _ _ _ _ _ H1 H2).
  - intros Hc. apply Hc in H5. rewrite H4 in H5. discriminate.
  - intros Hsub. rewrite map_subseteq_spec in Hsub.
    apply Hsub in H3. rewrite H4 in H3. discriminate.
Qed.

(** ** Runs of the model *)

Example decodeFileDesc_runs :
  decodeFileDesc Sample.E Sample.encFoo = Ok "foo.proto"%string /\
  decodeFileDesc Sample.E Sample.encBad =
    Err (Errorf "failed to decompress enc" []) /\
  decodeFileDesc Sample.E (Sample.gz []) =
    Err (Errorf "failed to decompress enc" []) /\
  proto_Unmarshal Sample.E [x01; xff] =
    ("foo.proto"%string, Some (foreign "proto: unexpected EOF")) /\
  decodeFileDesc Sample.E Sample.encTorn =
    Err (Errorf "bad descriptor: %v"
           [ArgError (foreign "proto: unexpected EOF")]).
Proof. repeat split. Qed.

Example fileDescContainingExtension_runs :
  fileDescContainingExtension Sample.E Sample.Foo 101 Sample.s0 =
    Done (Err (Errorf
                 "failed to find registered extension for extension number %v"
                 [ArgInt32 101])) Sample.s0 /\
  fileDescContainingExtension Sample.E Sample.int32 101 Sample.s0 =
    Done (Err (Errorf "failed to create message from type: %v"
                 [ArgType Sample.int32])) Sample.s0 /\
  fileDescContainingExtension Sample.E Sample.Foo 100 Sample.s0 =
    Done (Ok "ext.proto"%string)
      (set_typeToFileDescMap Sample.Ext "ext.proto" Sample.s0).
Proof. repeat split; vm_compute; reflexivity. Qed.

Example allExtensionNumbersForType_runs :
  allExtensionNumbersForType Sample.E Sample.Foo = Ok [100] /\
  allExtensionNumbersForType Sample.E Sample.Ext = Ok [] /\
  allExtensionNumbersForType Sample.E Sample.int32 =
    Err (Errorf "failed to create message from type: %v"
           [ArgType Sample.int32]).
Proof. repeat split; vm_compute; reflexivity. Qed.

(** A list-services request gets one unimplemented-error response and the
    next request is still served. *)
Example session_list_services :
  ServerReflectionInfo Sample.E Sample.accept
    [RecvMsg (Sample.request (Some ListServices));
     RecvMsg (Sample.request (Some (FileByFilename "foo.proto")))]
    [] Sample.s0 =
  Done (None,
        [errorOut (Sample.request (Some ListServices)) 12
           "list_services not implemented";
         {| ValidHost := "localhost:50051";
            OriginalRequest :=
              Sample.request (Some (FileByFilename "foo.proto"));
            MessageResponse := Some (FileDescriptorResponse [[x0a; x01]]) |}])
    Sample.s0.
Proof. vm_compute. reflexivity. Qed.

(** A lookup that succeeds followed by one that fails: two responses in
    order, the second a not-found error; the stream then ends cleanly. *)
Example session_lookup_then_unknown :
  ServerReflectionInfo Sample.E Sample.accept
    [RecvMsg (Sample.request (Some (FileByFilename "foo.proto")));
     RecvMsg (Sample.request (Some (FileContainingSymbol "Unknown.Type")));
     RecvErr io_EOF]
    [] Sample.s0 =
  Done (None,
        [{| ValidHost := "localhost:50051";
            OriginalRequest :=
              Sample.request (Some (FileByFilename "foo.proto"));
            MessageResponse := Some (FileDescriptorResponse [[x0a; x01]]) |};
         errorOut (Sample.request (Some (FileContainingSymbol "Unknown.Type")))
           5 "unknown symbol: %v Unknown.Type"])
    Sample.s0.
Proof. vm_compute. reflexivity. Qed.

(** The loop ends on a transport error: of [Recv], or of [Send]. *)
Example session_transport_errors :
  ServerReflectionInfo Sample.E Sample.accept
    [RecvErr (foreign "connection reset");
     RecvMsg (Sample.request (Some ListServices))] [] Sample.s0 =
    Done (Some (foreign "connection reset"), []) Sample.s0 /\
  ServerReflectionInfo Sample.E (fun _ _ => Some (foreign "broken pipe"))
    [RecvMsg (Sample.request (Some ListServices));
     RecvMsg (Sample.request (Some ListServices))] [] Sample.s0 =
    Done (Some (foreign "broken pipe"), []) Sample.s0.
Proof. split; vm_compute; reflexivity. Qed.

(** The registry that gives [pkg.Foo] a second name is not injective. *)
Example Sample_alias_not_injective : ~ registry_injective Sample.E_alias.
Proof.
  intros H.
  specialize (H "pkg.Foo"%string "pkg.FooAlias"%string
                (Ptr Sample.Foo) (Ptr Sample.Foo) Sample.Foo
                eq_refl eq_refl eq_refl eq_refl).
  discriminate.
Qed.

(** * Further properties of the resolver *)

Section Coverage.

Context {FileDescriptorProto : Type}.
Implicit Types (E : Env FileDescriptorProto).
Implicit Types (s : serverReflectionServer FileDescriptorProto).
Implicit Types (fd : FileDescriptorProto) (st : rtype) (name : string).

Ltac unfold_ops := unfold bind, ret, gets, modify, panic in *.

(** ** The descriptor cache *)

Lemma fileDescForType_sound E st s r s' :
  fileDescForType E st s = Done r s' ->
  descriptors_sound E s -> descriptors_sound E s'.
Proof.
  rewrite fileDescForType_eq.
  destruct (as_protoMessage E (PtrTo st)) as [[enc idxs] |] eqn:Ha;
    [| by intros [= _ <-]].
  destruct (typeToFileDescMap s !! st); [by intros [= _ <-] |].
  destruct (decodeFileDesc E enc) as [fd |] eqn:Hd; [| by intros [= _ <-]].
  intros [= _ <-] Hs st' fd'. simpl.
  destruct (decide (st = st')) as [<- | Hne].
  - rewrite lookup_insert_eq. intros [= <-]. eauto.
  - rewrite lookup_insert_ne by done. apply Hs.
Qed.

Lemma typeForName_sound E name s r s' :
  typeForName E name s = Done r s' ->
  descriptors_sound E s -> descriptors_sound E s'.
Proof.
  intros H Hs. apply typeForName_cases in H
    as [(st & _ & _ & ->) | [(_ & _ & _ & ->) | (pt & st & r' & _ & _ & _ & _ & Hf)]];
    [done .. |].
  by apply (fileDescForType_sound _ _ _ _ _ Hf).
Qed.

Lemma evolves_sound E s s' :
  evolves E s s' -> descriptors_sound E s -> descriptors_sound E s'.
Proof.
  induction 1 as [s | name r s s' s'' H _ IH | st r s s' s'' H _ IH]; intros Hs;
    [done | |]; apply IH.
  - by eapply typeForName_sound.
  - by eapply fileDescForType_sound.
Qed.

Lemma typeForName_descriptors E name s r s' :
  typeForName E name s = Done r s' ->
  s_ s' = s_ s /\ typeToFileDescMap s ⊆ typeToFileDescMap s'.
Proof.
  intros H. apply typeForName_cases in H
    as [(st & _ & _ & ->) | [(_ & _ & _ & ->) | (pt & st & r' & _ & _ & _ & _ & Hf)]];
    [done .. |].
  by apply fileDescForType_frame in Hf as (? & _ & _ & ?).
Qed.

Lemma evolves_descriptors E s s' :
  evolves E s s' ->
  s_ s' = s_ s /\ typeToFileDescMap s ⊆ typeToFileDescMap s'.
Proof.
  induction 1 as [s | name r s s' s'' H _ [IH1 IH2] | st r s s' s'' H _ [IH1 IH2]];
    [done | |].
  - apply typeForName_descriptors in H as [H1 H2].
    split; [congruence | by etrans].
  - apply fileDescForType_frame in H as (H1 & _ & _ & H2).
    split; [congruence | by etrans].
Qed.

Lemma reachable_sound E g s : reachable E g s -> descriptors_sound E s.
Proof.
  induction 1 as [| c s s' _ IH Hc].
  - intros st fd. simpl. by rewrite lookup_empty.
  - apply exec_evolves in Hc. by apply (evolves_sound _ _ _ Hc).
Qed.

(** X1: at every reachable state each descriptor in [typeToFileDescMap] is
    the result of decoding the bytes the [Descriptor] method of its type
    returns: the cache never holds a descriptor the decoder did not
    produce, nor one filed under another type. *)
Theorem descriptor_cache_sound E g s :
  reachable E g s ->
  forall st fd,
    typeToFileDescMap s !! st = Some fd ->
    exists enc idxs,
      as_protoMessage E (PtrTo st) = Some (enc, idxs) /\
      decodeFileDesc E enc = Ok fd.
Proof. apply reachable_sound. Qed.

(** X2: at a reachable state the cache does not change what
    [fileDescForType] answers: the call returns, and its result is the one
    the type assertion and the decoder give without any cache. *)
Theorem fileDescForType_cache_transparent E g s st :
  reachable E g s ->
  exists s', fileDescForType E st s = Done (decodedFileDesc E st) s'.
Proof.
  intros Hr. apply reachable_sound in Hr.
  rewrite fileDescForType_eq. unfold decodedFileDesc.
  destruct (as_protoMessage E (PtrTo st)) as [[enc idxs] |] eqn:Ha; [| eauto].
  destruct (typeToFileDescMap s !! st) as [fd |] eqn:Hc.
  - destruct (Hr _ _ Hc) as (enc' & idxs' & Ha' & Hd).
    rewrite Ha in Ha'. injection Ha' as <- <-. rewrite Hd. eauto.
  - destruct (decodeFileDesc E enc); eauto.
Qed.

(** X3: at a reachable state the name cache does not change what
    [typeForName] answers: when the call returns, an error means the
    registry does not know the name, and a type is the element type of what
    the registry holds for the name. *)
Theorem typeForName_agrees_with_registry E g s name r s' :
  reachable E g s ->
  typeForName E name s = Done r s' ->
  match proto_MessageType E name with
  | None => r = Err (Errorf "unknown type: %q" [ArgString name])
  | Some pt => exists st, Elem pt = Some st /\ r = Ok st
  end.
Proof.
  intros Hr H. apply reachable_invariants in Hr as (_ & Hreg & _).
  apply typeForName_cases in H
    as [(st & Hn & -> & _) | [(_ & Hp & -> & _) | (pt & st & r' & _ & Hp & He & -> & _)]].
  - destruct (Hreg _ _ Hn) as (pt & -> & He). eauto.
  - by rewrite Hp.
  - rewrite Hp. eauto.
Qed.

(** X4: no call removes or replaces a cached descriptor, and no call
    changes the server the receiver was installed on: after any call that
    returns, [typeToFileDescMap] holds all its former entries unchanged. *)
Theorem descriptor_cache_only_grows E c s s' :
  exec E c s = Some s' ->
  typeToFileDescMap s ⊆ typeToFileDescMap s' /\ s_ s' = s_ s.
Proof.
  intros Hc. apply exec_evolves in Hc.
  by apply evolves_descriptors in Hc as [? ?].
Qed.

(** X5: a failed resolution of a type leaves no trace.  When
    [fileDescForType], [typeForName] or [fileDescContainingExtension]
    returns an error, the receiver is exactly as before the call: a failure
    is never cached, and the next call asks the collaborators again. *)
Theorem failed_resolution_leaves_receiver E s err s' :
  (forall st, fileDescForType E st s = Done (Err err) s' -> s' = s) /\
  (forall name, typeForName E name s = Done (Err err) s' -> s' = s) /\
  (forall st ext,
     fileDescContainingExtension E st ext s = Done (Err err) s' -> s' = s).
Proof.
  split; [intros st; apply fileDescForType_Err |].
  split; [intros name H; by apply typeForName_Err in H as [-> _] |].
  intros st ext. unfold fileDescContainingExtension. unfold_ops.
  destruct (as_proto_Message E (PtrTo st)); [| by intros [= _ <-]].
  destruct (findExtension ext _) as [d |]; [| by intros [= _ <-]].
  destruct (TypeOf_Elem (ExtensionType d)) as [extT |]; [| done].
  destruct (typeToFileDescMap s !! extT); [done |].
  destruct (fileDescForType E extT s) as [[[fd idxs] | e] s1 |] eqn:Hf;
    [done | | done].
  intros [= -> <-]. by apply fileDescForType_Err in Hf.
Qed.

(** ** Names the registry does not know *)

(** X6: a type name that is neither cached nor registered makes both
    [fileDescWireFormatContainingExtension] and
    [allExtensionNumbersForTypeName] return the unknown-type error of
    [typeForName], before any extension is looked at and with the receiver
    unchanged. *)
Theorem unknown_type_name_is_reported E name extNum s :
  nameToTypeMap s !! name = None ->
  proto_MessageType E name = None ->
  fileDescWireFormatContainingExtension E name extNum s =
    Done (Err (Errorf "unknown type: %q" [ArgString name])) s /\
  allExtensionNumbersForTypeName E name s =
    Done (Err (Errorf "unknown type: %q" [ArgString name])) s.
Proof.
  intros Hn Hp.
  assert (typeForName E name s =
          Done (Err (Errorf "unknown type: %q" [ArgString name])) s) as Ht
    by (by rewrite typeForName_eq, Hn, Hp).
  unfold fileDescWireFormatContainingExtension, allExtensionNumbersForTypeName.
  unfold_ops. by rewrite Ht.
Qed.

(** X7: when the name resolves to a message type,
    [allExtensionNumbersForTypeName] succeeds and lists every registered
    extension number of the type exactly once: no number is missing,
    repeated or invented. *)
Theorem allExtensionNumbers_each_once E name s st s' :
  typeForName E name s = Done (Ok st) s' ->
  as_proto_Message E (PtrTo st) = true ->
  exists out,
    allExtensionNumbersForTypeName E name s = Done (Ok out) s' /\
    NoDup out /\
    forall id,
      id ∈ out <-> is_Some (proto_RegisteredExtensions E (PtrTo st) !! id).
Proof.
  intros Ht Hm.
  destruct (allExtensionNumbersForType_keys E st Hm) as (out & Ho & Hnd & Hin).
  exists out. split; [| done].
  unfold allExtensionNumbersForTypeName. unfold_ops. by rewrite Ht, Ho.
Qed.

(** ** Answers that agree *)

(** X8: at a reachable state, looking a type name up as a symbol gives
    what looking up its file by name gives, bytes or error, whenever the
    registry holds for the file the bytes the type's [Descriptor] method
    returns: answering from the cache and decoding afresh agree. *)
Theorem symbol_lookup_matches_file_lookup E g s name st s1 enc idxs file :
  reachable E g s ->
  typeForName E name s = Done (Ok st) s1 ->
  as_protoMessage E (PtrTo st) = Some (enc, idxs) ->
  proto_FileDescriptor E file = Some enc ->
  exists s2,
    fileDescWireFormatContainingSymbol E name s =
    Done (fileDescWireFormatByFilename E file) s2.
Proof.
  intros Hr Ht Ha Hf.
  assert (descriptors_sound E s1) as Hs.
  { apply (evolves_sound E s); [by eapply evolves_one_typeForName |].
    by eapply reachable_sound. }
  unfold fileDescWireFormatContainingSymbol, symbolFileDesc,
    fileDescWireFormatByFilename.
  unfold_ops. rewrite Ht, Hf, fileDescForType_eq, Ha.
  destruct (typeToFileDescMap s1 !! st) as [fd |] eqn:Hc.
  - destruct (Hs _ _ Hc) as (enc' & idxs' & Ha' & Hd).
    rewrite Ha in Ha'. injection Ha' as <- <-. rewrite Hd.
    destruct (proto_Marshal E fd); eauto.
  - destruct (decodeFileDesc E enc) as [fd |]; [| eauto].
    destruct (proto_Marshal E fd); eauto.
Qed.

(** ** No panic *)

Lemma typeForName_returns E name s :
  registry_wellformed E -> exists r s', typeForName E name s = Done r s'.
Proof.
  intros [Hwf _]. rewrite typeForName_eq.
  destruct (nameToTypeMap s !! name); [eauto |].
  destruct (proto_MessageType E name) as [pt |] eqn:Hp; [| eauto].
  destruct (Hwf _ _ Hp) as [st ->]. simpl.
  destruct (fileDescForType_returns E st
              (set_nameToTypeMap name st (set_typeToNameMap st name s)))
    as ([[fd idxs] | err] & s2 & ->); eauto.
Qed.

Lemma fileDescContainingExtension_returns E st ext s :
  registry_wellformed E ->
  exists r s', fileDescContainingExtension E st ext s = Done r s'.
Proof.
  intros [_ Hwf]. unfold fileDescContainingExtension. unfold_ops.
  destruct (as_proto_Message E (PtrTo st)); [| eauto].
  rewrite (findExtension_range ext _ _ (reflexivity _)).
  destruct (proto_RegisteredExtensions E (PtrTo st) !! ext) as [d |] eqn:Hd;
    [| eauto].
  destruct (Hwf _ _ _ Hd) as [extT ->].
  destruct (typeToFileDescMap s !! extT); [eauto |].
  destruct (fileDescForType_returns E extT s)
    as ([[fd idxs] | err] & s2 & ->); eauto.
Qed.

Lemma fileDescWireFormatContainingSymbol_returns E name s :
  registry_wellformed E ->
  exists r s', fileDescWireFormatContainingSymbol E name s = Done r s'.
Proof.
  intros Hwf. unfold fileDescWireFormatContainingSymbol, symbolFileDesc.
  unfold_ops.
  destruct (typeForName_returns E name s Hwf) as ([st | err] & s1 & ->).
  - destruct (fileDescForType_returns E st s1)
      as ([[fd idxs] | err] & s2 & ->); [| eauto].
    destruct (proto_Marshal E fd); eauto.
  - destruct (Metadata (s_ s1) name) as [[enc |] |]; [| eauto ..].
    destruct (decodeFileDesc E enc) as [fd |]; [| eauto].
    destruct (proto_Marshal E fd); eauto.
Qed.

Lemma fileDescWireFormatContainingExtension_returns E typeName extNum s :
  registry_wellformed E ->
  exists r s',
    fileDescWireFormatContainingExtension E typeName extNum s = Done r s'.
Proof.
  intros Hwf. unfold fileDescWireFormatContainingExtension. unfold_ops.
  destruct (typeForName_returns E typeName s Hwf) as ([st | err] & s1 & ->);
    [| eauto].
  destruct (fileDescContainingExtension_returns E st extNum s1 Hwf)
    as ([fd | err] & s2 & ->); [| eauto].
  destruct (proto_Marshal E fd); eauto.
Qed.

Lemma allExtensionNumbersForTypeName_returns E name s :
  registry_wellformed E ->
  exists r s', allExtensionNumbersForTypeName E name s = Done r s'.
Proof.
  intros Hwf. unfold allExtensionNumbersForTypeName. unfold_ops.
  destruct (typeForName_returns E name s Hwf) as ([st | err] & s1 & ->);
    [| eauto].
  destruct (allExtensionNumbersForType E st); eauto.
Qed.

Lemma serveRequest_returns E in_ s :
  registry_wellformed E -> exists r s', serveRequest E in_ s = Done r s'.
Proof.
  intros Hwf. unfold serveRequest. unfold_ops.
  destruct (MessageRequest in_) as [[name | name | req | name |] |]; [| | | | eauto ..].
  - destruct (fileDescWireFormatByFilename E name); eauto.
  - destruct (fileDescWireFormatContainingSymbol_returns E name s Hwf)
      as ([b | err] & s1 & ->); eauto.
  - destruct (fileDescWireFormatContainingExtension_returns E
                (ContainingType req) (ExtensionNumber req) s Hwf)
      as ([b | err] & s1 & ->); eauto.
  - destruct (allExtensionNumbersForTypeName_returns E name s Hwf)
      as ([b | err] & s1 & ->); eauto.
Qed.

Lemma ServerReflectionInfo_returns E send recvs sent s :
  registry_wellformed E ->
  exists r s', ServerReflectionInfo E send recvs sent s = Done r s'.
Proof.
  intros Hwf. revert sent s.
  induction recvs as [| [in_ | err] rest IH]; intros sent s; simpl.
  - unfold_ops. eauto.
  - unfold_ops.
    destruct (serveRequest_returns E in_ s Hwf) as ([out | err] & s1 & ->);
      [| eauto].
    destruct (send sent out); [eauto | apply IH].
  - destruct err; unfold_ops; eauto.
Qed.

(** C2: a request of one of the five kinds is handled with exactly one
    response, whose valid-host field is the host of the request and whose
    original-request field is the request itself, unmodified; its message
    field is set and it is the response the loop passes to [Send].  This
    holds whenever the switch returns, and it does return for every request
    when the registry is well formed.  The switch panics only when the
    resolver of the request's kind panics (inside [Elem]): never on a
    by-filename or a list-services request. *)
Theorem response_echoes_request E send in_ k rest sent s :
  MessageRequest in_ = Some k ->
  (registry_wellformed E ->
   exists out s',
     serveRequest E in_ s = Done (Ok out) s' /\
     ValidHost out = Host in_ /\
     OriginalRequest out = in_ /\
     is_Some (MessageResponse out) /\
     ServerReflectionInfo E send (RecvMsg in_ :: rest) sent s =
       sendThenLoop E send rest sent out s') /\
  (forall r s',
     serveRequest E in_ s = Done r s' ->
     exists out,
       r = Ok out /\
       ValidHost out = Host in_ /\
       OriginalRequest out = in_ /\
       is_Some (MessageResponse out) /\
       ServerReflectionInfo E send (RecvMsg in_ :: rest) sent s =
         sendThenLoop E send rest sent out s') /\
  (serveRequest E in_ s = Panic <->
   match k with
   | FileByFilename _ => False
   | FileContainingSymbol name =>
       fileDescWireFormatContainingSymbol E name s = Panic
   | FileContainingExtension req =>
       fileDescWireFormatContainingExtension E (ContainingType req)
         (ExtensionNumber req) s = Panic
   | AllExtensionNumbersOfType name =>
       allExtensionNumbersForTypeName E name s = Panic
   | ListServices => False
   end).
Proof.
  intros Hk.
  assert (forall r s',
            serveRequest E in_ s = Done r s' ->
            exists out,
              r = Ok out /\ ValidHost out = Host in_ /\
              OriginalRequest out = in_ /\ is_Some (MessageResponse out) /\
              ServerReflectionInfo E send (RecvMsg in_ :: rest) sent s =
                sendThenLoop E send rest sent out s') as Hret.
  { intros r s' Hs.
    destruct (serveRequest_recognized E in_ k s Hk) as [Hp | (m & s1 & Hs1)];
      [congruence |].
    rewrite Hs1 in Hs. injection Hs as <- <-.
    eexists. split; [done |]. simpl.
    split; [done |]. split; [done |]. split; [eauto |].
    by apply ServerReflectionInfo_step. }
  split; [| split; [exact Hret |]].
  - intros Hwf.
    destruct (serveRequest_returns E in_ s Hwf) as (r & s' & Hs).
    destruct (Hret _ _ Hs) as (out & -> & ? & ? & ? & ?).
    exists out, s'. done.
  - unfold serveRequest. rewrite Hk. unfold_ops.
    destruct k as [name | name | req | name |]; simpl.
    + by destruct (fileDescWireFormatByFilename E name).
    + by destruct (fileDescWireFormatContainingSymbol E name s)
        as [[b | err] s' |].
    + by destruct (fileDescWireFormatContainingExtension E _ _ s)
        as [[b | err] s' |].
    + by destruct (allExtensionNumbersForTypeName E name s)
        as [[b | err] s' |].
    + done.
Qed.

(** X9: when every registered message type is a pointer or slice type and
    every registered extension has a pointer or slice [ExtensionType], no
    call panics: each method, and the request loop on every stream and
    transport, returns. *)
Theorem wellformed_registry_never_panics E c s :
  registry_wellformed E -> is_Some (exec E c s).
Proof.
  intros Hwf. destruct c; simpl.
  - by destruct (fileDescForType_returns E st s) as (r & s' & ->).
  - by destruct (typeForName_returns E name s Hwf) as (r & s' & ->).
  - by destruct (fileDescContainingExtension_returns E st ext s Hwf)
      as (r & s' & ->).
  - by destruct (fileDescWireFormatContainingSymbol_returns E name s Hwf)
      as (r & s' & ->).
  - by destruct (fileDescWireFormatContainingExtension_returns E
                   typeName extNum s Hwf) as (r & s' & ->).
  - by destruct (allExtensionNumbersForTypeName_returns E name s Hwf)
      as (r & s' & ->).
  - by destruct (ServerReflectionInfo_returns E send recvs [] s Hwf)
      as (r & s' & ->).
Qed.

(** ** The stream of responses *)

Lemma serveRequest_Ok E in_ s out s' :
  serveRequest E in_ s = Done (Ok out) s' ->
  ValidHost out = Host in_ /\ OriginalRequest out = in_ /\
  is_Some (MessageResponse out).
Proof.
  intros H. destruct (MessageRequest in_) as [k |] eqn:Hk.
  - destruct (serveRequest_recognized E in_ k s Hk) as [Hp | (r & s1 & Hs)];
      [congruence |].
    rewrite Hs in H. injection H as <- <-. simpl. eauto.
  - unfold serveRequest in H. rewrite Hk in H. done.
Qed.

Lemma ServerReflectionInfo_responses E send recvs sent s err sent' s' :
  ServerReflectionInfo E send recvs sent s = Done (err, sent') s' ->
  exists outs,
    sent' = sent ++ outs /\
    OriginalRequest <$> outs `prefix_of` requests recvs /\
    Forall (fun out => ValidHost out = Host (OriginalRequest out) /\
                       is_Some (MessageResponse out)) outs /\
    (err = None -> OriginalRequest <$> outs = requests recvs).
Proof.
  assert (forall l (e : error),
            exists outs : list ServerReflectionResponse,
              sent' = sent' ++ outs /\
              OriginalRequest <$> outs `prefix_of` l /\
              Forall (fun out => ValidHost out = Host (OriginalRequest out) /\
                                 is_Some (MessageResponse out)) outs /\
              (Some e = None -> OriginalRequest <$> outs = l)) as Hstop.
  { intros l e. exists []. rewrite app_nil_r.
    split; [done |]. split; [apply prefix_nil |]. split; [constructor | done]. }
  revert sent s. induction recvs as [| [in_ | e] rest IH]; intros sent s; simpl.
  - intros [= <- <- <-]. exists []. rewrite app_nil_r.
    split; [done |]. split; [done |]. split; [constructor | done].
  - unfold_ops.
    destruct (serveRequest E in_ s) as [[out | e] s1 |] eqn:Hs; [| | done].
    + apply serveRequest_Ok in Hs as (Hh & Ho & Hm).
      destruct (send sent out) as [e |].
      * intros [= <- <- <-]. apply Hstop.
      * intros H. apply IH in H as (outs & -> & Hp & Hf & Hc).
        exists (out :: outs). rewrite <- app_assoc, fmap_cons, Ho.
        split; [done |]. split; [by apply prefix_cons |].
        split; [constructor; [by rewrite Ho | done] |].
        intros He. by rewrite (Hc He).
    + intros [= <- <- <-]. apply Hstop.
  - destruct e.
    + intros [= <- <- <-]. exists []. rewrite app_nil_r.
      split; [done |]. split; [done |]. split; [constructor | done].
    + intros [= <- <- <-]. apply Hstop.
    + intros [= <- <- <-]. apply Hstop.
    + intros [= <- <- <-]. apply Hstop.
Qed.

(** X10: whatever the stream and the transport do, the loop only adds to
    the responses delivered, one per request and in the order of the
    requests: the new responses echo, in order, the first requests of the
    stream, each with the host of its request and with a message set.  No
    request is answered twice, out of order, or after a request that was
    not answered. *)
Theorem responses_follow_requests E send recvs sent s err sent' s' :
  ServerReflectionInfo E send recvs sent s = Done (err, sent') s' ->
  exists outs,
    sent' = sent ++ outs /\
    OriginalRequest <$> outs `prefix_of` requests recvs /\
    Forall (fun out => ValidHost out = Host (OriginalRequest out) /\
                       is_Some (MessageResponse out)) outs.
Proof.
  intros H. apply ServerReflectionInfo_responses in H
    as (outs & ? & ? & ? & _). eauto.
Qed.

(** X11: when the loop returns nil, every request the stream delivered
    before it ended has been answered: the new responses echo exactly those
    requests, so there are as many responses as requests. *)
Theorem clean_end_answers_every_request E send recvs sent s sent' s' :
  ServerReflectionInfo E send recvs sent s = Done (None, sent') s' ->
  exists outs,
    sent' = sent ++ outs /\
    OriginalRequest <$> outs = requests recvs /\
    length outs = length (requests recvs).
Proof.
  intros H. apply ServerReflectionInfo_responses in H
    as (outs & ? & _ & _ & Hc).
  exists outs. split; [done |].
  specialize (Hc eq_refl). split; [done |].
  by rewrite <- Hc, length_fmap.
Qed.

(** X12: a session can be cut at any request.  When the loop ends cleanly
    on a run of requests, the loop on those requests followed by more of
    the stream is the loop on the rest, started from the receiver and the
    responses the first part left: the caches carry over and nothing else
    does. *)
Theorem session_splits E send ins rest sent s sent' s' :
  ServerReflectionInfo E send (RecvMsg <$> ins) sent s = Done (None, sent') s' ->
  ServerReflectionInfo E send ((RecvMsg <$> ins) ++ rest) sent s =
  ServerReflectionInfo E send rest sent' s'.
Proof.
  revert sent s. induction ins as [| in_ ins IH]; intros sent s; simpl.
  - by intros [= <- <-].
  - unfold_ops.
    destruct (serveRequest E in_ s) as [[out | e] s1 |]; [| done | done].
    destruct (send sent out); [done |]. apply IH.
Qed.

(** X13: a lookup request whose resolution succeeds is answered with the
    bytes the resolver returned as the only element of the file-descriptor
    list, and an extension-numbers request with the requested name as base
    type name and the numbers the resolver returned; the loop goes on to
    [Send] that response. *)
Theorem successful_resolution_is_answered E send in_ rest sent s :
  (forall name b,
     MessageRequest in_ = Some (FileByFilename name) ->
     fileDescWireFormatByFilename E name = Ok b ->
     ServerReflectionInfo E send (RecvMsg in_ :: rest) sent s =
     sendThenLoop E send rest sent
       {| ValidHost := Host in_; OriginalRequest := in_;
          MessageResponse := Some (FileDescriptorResponse [b]) |} s) /\
  (forall name b s',
     MessageRequest in_ = Some (FileContainingSymbol name) ->
     fileDescWireFormatContainingSymbol E name s = Done (Ok b) s' ->
     ServerReflectionInfo E send (RecvMsg in_ :: rest) sent s =
     sendThenLoop E send rest sent
       {| ValidHost := Host in_; OriginalRequest := in_;
          MessageResponse := Some (FileDescriptorResponse [b]) |} s') /\
  (forall req b s',
     MessageRequest in_ = Some (FileContainingExtension req) ->
     fileDescWireFormatContainingExtension E (ContainingType req)
       (ExtensionNumber req) s = Done (Ok b) s' ->
     ServerReflectionInfo E send (RecvMsg in_ :: rest) sent s =
     sendThenLoop E send rest sent
       {| ValidHost := Host in_; OriginalRequest := in_;
          MessageResponse := Some (FileDescriptorResponse [b]) |} s') /\
  (forall name extNums s',
     MessageRequest in_ = Some (AllExtensionNumbersOfType name) ->
     allExtensionNumbersForTypeName E name s = Done (Ok extNums) s' ->
     ServerReflectionInfo E send (RecvMsg in_ :: rest) sent s =
     sendThenLoop E send rest sent
       {| ValidHost := Host in_; OriginalRequest := in_;
          MessageResponse :=
            Some (AllExtensionNumbersResponse name extNums) |} s').
Proof.
  repeat split; intros ? ?.
  - intros Hk Hr. apply ServerReflectionInfo_step.
    unfold serveRequest. by rewrite Hk, Hr.
  - intros s' Hk Hr. apply ServerReflectionInfo_step.
    unfold serveRequest. unfold_ops. by rewrite Hk, Hr.
  - intros s' Hk Hr. apply ServerReflectionInfo_step.
    unfold serveRequest. unfold_ops. rewrite Hk. simpl. by rewrite Hr.
  - intros s' Hk Hr. apply ServerReflectionInfo_step.
    unfold serveRequest. unfold_ops. by rewrite Hk, Hr.
Qed.

(** ** Files by name, and what a first resolution caches *)

(** X14: [fileDescWireFormatByFilename] returns bytes only for a file the
    registry knows whose bytes decode, and then the bytes are the
    marshalling of the decoded descriptor; a file the registry does not
    know is reported as the unknown-file error. *)
Theorem fileDescWireFormatByFilename_cases E name :
  (proto_FileDescriptor E name = None ->
   fileDescWireFormatByFilename E name =
   Err (Errorf "unknown file: %v" [ArgString name])) /\
  (forall b,
     fileDescWireFormatByFilename E name = Ok b <->
     exists enc fd,
       proto_FileDescriptor E name = Some enc /\
       decodeFileDesc E enc = Ok fd /\ proto_Marshal E fd = Ok b).
Proof.
  unfold fileDescWireFormatByFilename. split; [by intros -> |].
  intros b. destruct (proto_FileDescriptor E name) as [enc |].
  - destruct (decodeFileDesc E enc) as [fd | err] eqn:Hd.
    + destruct (proto_Marshal E fd) as [b' | err] eqn:Hm.
      * split; [intros [= ->]; eauto |].
        intros (enc' & fd' & [= <-] & Hd' & Hm'). congruence.
      * split; [done |]. intros (enc' & fd' & [= <-] & Hd' & Hm'). congruence.
    + split; [done |]. intros (enc' & fd' & [= <-] & Hd' & _). congruence.
  - split; [done |]. by intros (enc' & fd' & [=] & _).
Qed.

(** X15: at a reachable state, a [typeForName] that misses the name cache
    and succeeds leaves the pair of the name and the type in the two name
    caches, and leaves the descriptor of the type in the descriptor cache
    whenever that descriptor can be decoded: the [fileDescForType] a caller
    makes next is answered from the cache. *)
Theorem typeForName_fills_caches E g s name st s' :
  reachable E g s ->
  nameToTypeMap s !! name = None ->
  typeForName E name s = Done (Ok st) s' ->
  nameToTypeMap s' !! name = Some st /\
  typeToNameMap s' !! st = Some name /\
  forall fd idxs,
    decodedFileDesc E st = Ok (fd, idxs) ->
    typeToFileDescMap s' !! st = Some fd.
Proof.
  intros Hr Hmiss H. apply reachable_sound in Hr.
  apply typeForName_cases in H
    as [(st' & Hn & _) | [(_ & _ & [=] & _) | (pt & st' & r' & _ & _ & _ & [= <-] & Hf)]];
    [congruence |].
  pose proof (fileDescForType_frame _ _ _ _ _ Hf) as (_ & Htn & Hnt & _).
  rewrite Htn, Hnt. simpl.
  split; [apply lookup_insert_eq |]. split; [apply lookup_insert_eq |].
  intros fd idxs Hdec. unfold decodedFileDesc in Hdec.
  destruct (as_protoMessage E (PtrTo st)) as [[enc idxs'] |] eqn:Ha; [| done].
  destruct (decodeFileDesc E enc) as [fd1 |] eqn:Hd; [| done].
  injection Hdec as -> ->.
  revert Hf. rewrite fileDescForType_eq, Ha. simpl.
  destruct (typeToFileDescMap s !! st) as [fd0 |] eqn:Hc.
  - intros [= _ <-]. simpl. rewrite Hc.
    destruct (Hr _ _ Hc) as (enc' & idxs'' & Ha' & Hd'). congruence.
  - rewrite Hd. intros [= _ <-]. simpl. apply lookup_insert_eq.
Qed.

End Coverage.

(** * The further properties at concrete inputs *)

Lemma Sample_registry_wellformed : registry_wellformed Sample.E.
Proof.
  split.
  - intros name pt. simpl. unfold Sample.MessageType.
    repeat match goal with
           | |- context [String.eqb ?a ?b] => destruct (String.eqb a b)
           end; intros [= <-]; simpl; eauto.
  - intros t id desc. simpl. unfold Sample.RegisteredExtensions.
    destruct (decide (t = Ptr Sample.Foo)).
    + rewrite lookup_singleton_Some. intros [_ <-]. simpl. eauto.
    + by rewrite lookup_empty.
Qed.

Lemma response_echoes_request_witness :
  exists out s',
    serveRequest Sample.E
      (Sample.request (Some (FileContainingSymbol "pkg.Foo"))) Sample.s0 =
      Done (Ok out) s' /\
    ValidHost out = "localhost:50051"%string /\
    OriginalRequest out =
      Sample.request (Some (FileContainingSymbol "pkg.Foo")) /\
    is_Some (MessageResponse out) /\
    ServerReflectionInfo Sample.E Sample.accept
      [RecvMsg (Sample.request (Some (FileContainingSymbol "pkg.Foo")))] []
      Sample.s0 =
    sendThenLoop Sample.E Sample.accept [] [] out s'.
Proof.
  apply (proj1 (response_echoes_request Sample.E Sample.accept
                  (Sample.request (Some (FileContainingSymbol "pkg.Foo")))
                  (FileContainingSymbol "pkg.Foo") [] [] Sample.s0 eq_refl)).
  exact Sample_registry_wellformed.
Defined.

Lemma fileDescContainingExtension_unregistered_or_resolved_witness :
  fileDescContainingExtension Sample.E Sample.Foo 101 Sample.s0 =
    Done (Err (Errorf
                 "failed to find registered extension for extension number %v"
                 [ArgInt32 101])) Sample.s0 /\
  fileDescContainingExtension Sample.E Sample.Foo 100 Sample.s0 =
    Done (Ok "ext.proto"%string)
      (set_typeToFileDescMap Sample.Ext "ext.proto" Sample.s0) /\
  fileDescContainingExtension Sample.E Sample.Foo 100
    (set_typeToFileDescMap Sample.Ext "ext.proto" Sample.s0) =
    Done (Ok "ext.proto"%string)
      (set_typeToFileDescMap Sample.Ext "ext.proto" Sample.s0).
Proof.
  split; [| split].
  - apply (proj1 (fileDescContainingExtension_unregistered_or_resolved
                    Sample.E Sample.Foo 101 Sample.s0));
      vm_compute; reflexivity.
  - destruct (fileDescContainingExtension_unregistered_or_resolved
                Sample.E Sample.Foo 100 Sample.s0) as (_ & _ & H).
    destruct (H {| ExtensionType := Some (Ptr Sample.Ext) |}) as [_ H'];
      [vm_compute; reflexivity .. |].
    destruct (H' Sample.Ext) as (_ & Hdec & _); [reflexivity |].
    apply (Hdec "ext.proto"%string [0]); vm_compute; reflexivity.
  - destruct (fileDescContainingExtension_unregistered_or_resolved
                Sample.E Sample.Foo 100
                (set_typeToFileDescMap Sample.Ext "ext.proto" Sample.s0))
      as (_ & _ & H).
    destruct (H {| ExtensionType := Some (Ptr Sample.Ext) |}) as [_ H'];
      [vm_compute; reflexivity .. |].
    destruct (H' Sample.Ext) as (Hhit & _); [reflexivity |].
    apply Hhit; vm_compute; reflexivity.
Defined.

Lemma descriptor_cache_sound_witness :
  exists enc idxs,
    as_protoMessage Sample.E (PtrTo Sample.Foo) = Some (enc, idxs) /\
    decodeFileDesc Sample.E enc = Ok "foo.proto"%string.
Proof.
  apply (descriptor_cache_sound Sample.E Sample.server Sample.s_Foo);
    [| vm_compute; reflexivity].
  apply (reachable_call Sample.E Sample.server (call_typeForName "pkg.Foo")
           Sample.s0 Sample.s_Foo); [constructor | vm_compute; reflexivity].
Defined.

Lemma fileDescForType_cache_transparent_witness :
  exists s',
    fileDescForType Sample.E Sample.Foo Sample.s_Foo =
    Done (decodedFileDesc Sample.E Sample.Foo) s'.
Proof.
  apply (fileDescForType_cache_transparent Sample.E Sample.server Sample.s_Foo).
  apply (reachable_call Sample.E Sample.server (call_typeForName "pkg.Foo")
           Sample.s0 Sample.s_Foo); [constructor | vm_compute; reflexivity].
Defined.

Lemma typeForName_agrees_with_registry_witness :
  exists st, Elem (Ptr Sample.Foo) = Some st /\ Ok Sample.Foo = Ok st.
Proof.
  apply (typeForName_agrees_with_registry Sample.E Sample.server Sample.s_Foo
           "pkg.Foo" (Ok Sample.Foo) Sample.s_Foo);
    [| vm_compute; reflexivity].
  apply (reachable_call Sample.E Sample.server (call_typeForName "pkg.Foo")
           Sample.s0 Sample.s_Foo); [constructor | vm_compute; reflexivity].
Defined.

Lemma descriptor_cache_only_grows_witness :
  typeToFileDescMap Sample.s_Foo ⊆ typeToFileDescMap Sample.s_FooAlias /\
  s_ Sample.s_FooAlias = s_ Sample.s_Foo.
Proof.
  apply (descriptor_cache_only_grows Sample.E_alias
           (call_typeForName "pkg.FooAlias") Sample.s_Foo Sample.s_FooAlias).
  vm_compute; reflexivity.
Defined.

Lemma unknown_type_name_is_reported_witness :
  fileDescWireFormatContainingExtension Sample.E "pkg.Nope" 7 Sample.s0 =
    Done (Err (Errorf "unknown type: %q" [ArgString "pkg.Nope"])) Sample.s0 /\
  allExtensionNumbersForTypeName Sample.E "pkg.Nope" Sample.s0 =
    Done (Err (Errorf "unknown type: %q" [ArgString "pkg.Nope"])) Sample.s0.
Proof.
  apply (unknown_type_name_is_reported Sample.E "pkg.Nope" 7 Sample.s0);
    reflexivity.
Defined.

Lemma allExtensionNumbers_each_once_witness :
  exists out,
    allExtensionNumbersForTypeName Sample.E "pkg.Foo" Sample.s0 =
      Done (Ok out) Sample.s_Foo /\
    NoDup out /\
    forall id,
      id ∈ out <->
      is_Some (proto_RegisteredExtensions Sample.E (PtrTo Sample.Foo) !! id).
Proof.
  apply (allExtensionNumbers_each_once Sample.E "pkg.Foo" Sample.s0
           Sample.Foo Sample.s_Foo); vm_compute; reflexivity.
Defined.

Lemma symbol_lookup_matches_file_lookup_witness :
  exists s2,
    fileDescWireFormatContainingSymbol Sample.E "pkg.Foo" Sample.s0 =
    Done (fileDescWireFormatByFilename Sample.E "foo.proto") s2.
Proof.
  apply (symbol_lookup_matches_file_lookup Sample.E Sample.server Sample.s0
           "pkg.Foo" Sample.Foo Sample.s_Foo Sample.encFoo [0] "foo.proto");
    [constructor | vm_compute; reflexivity ..].
Defined.

Lemma wellformed_registry_never_panics_witness :
  is_Some (exec Sample.E
             (call_ServerReflectionInfo Sample.accept SampleSession.script)
             Sample.s0).
Proof.
  apply (wellformed_registry_never_panics Sample.E
           (call_ServerReflectionInfo Sample.accept SampleSession.script)
           Sample.s0).
  exact Sample_registry_wellformed.
Defined.

Lemma responses_follow_requests_witness :
  exists outs,
    SampleSession.answers = [] ++ outs /\
    OriginalRequest <$> outs `prefix_of` requests SampleSession.script /\
    Forall (fun out => ValidHost out = Host (OriginalRequest out) /\
                       is_Some (MessageResponse out)) outs.
Proof.
  apply (responses_follow_requests Sample.E Sample.accept SampleSession.script
           [] Sample.s0 None SampleSession.answers Sample.s0).
  vm_compute; reflexivity.
Defined.

Lemma clean_end_answers_every_request_witness :
  exists outs,
    SampleSession.answers = [] ++ outs /\
    OriginalRequest <$> outs = requests SampleSession.script /\
    length outs = length (requests SampleSession.script).
Proof.
  apply (clean_end_answers_every_request Sample.E Sample.accept
           SampleSession.script [] Sample.s0 SampleSession.answers Sample.s0).
  vm_compute; reflexivity.
Defined.

Lemma session_splits_witness :
  ServerReflectionInfo Sample.E Sample.accept
    ((RecvMsg <$> SampleSession.ins) ++
     [RecvMsg (Sample.request (Some (FileContainingSymbol "pkg.Foo")))])
    [] Sample.s0 =
  ServerReflectionInfo Sample.E Sample.accept
    [RecvMsg (Sample.request (Some (FileContainingSymbol "pkg.Foo")))]
    SampleSession.answers Sample.s0.
Proof.
  apply (session_splits Sample.E Sample.accept SampleSession.ins
           [RecvMsg (Sample.request (Some (FileContainingSymbol "pkg.Foo")))]
           [] Sample.s0 SampleSession.answers Sample.s0).
  vm_compute; reflexivity.
Defined.

Lemma typeForName_fills_caches_witness :
  nameToTypeMap Sample.s_Foo !! "pkg.Foo"%string = Some Sample.Foo /\
  typeToNameMap Sample.s_Foo !! Sample.Foo = Some "pkg.Foo"%string /\
  forall fd idxs,
    decodedFileDesc Sample.E Sample.Foo = Ok (fd, idxs) ->
    typeToFileDescMap Sample.s_Foo !! Sample.Foo = Some fd.
Proof.
  apply (typeForName_fills_caches Sample.E Sample.server Sample.s0 "pkg.Foo"
           Sample.Foo Sample.s_Foo);
    [constructor | vm_compute; reflexivity ..].
Defined.

(** A message type registered by value is not a pointer type: [Elem]
    panics on it, and so does the first resolution of its name. *)
Example registered_by_value_panics :
  typeForName
    {| proto_MessageType := fun _ => Some (Named "pkg.ByValue");
       proto_FileDescriptor := Sample.FileDescriptor;
       proto_RegisteredExtensions := Sample.RegisteredExtensions;
       proto_Unmarshal := Sample.Unmarshal;
       proto_Marshal := Sample.Marshal;
       gzip_NewReader := Sample.NewReader;
       ioutil_ReadAll := Sample.ReadAll;
       as_protoMessage := Sample.protoMessage;
       as_proto_Message := Sample.Message;
       fmt_Sprintf := Sample.Sprintf |}
    "pkg.ByValue" Sample.s0 = Panic.
Proof. reflexivity. Qed.

(** An extension that carries a scalar: its value type has no [Descriptor]
    method, and the lookup of the registered number ends in the error of
    [fileDescForType]. *)
Example scalar_extension_has_no_descriptor :
  fileDescContainingExtension
    {| proto_MessageType := Sample.MessageType;
       proto_FileDescriptor := Sample.FileDescriptor;
       proto_RegisteredExtensions := fun _ =>
         {[ 200 := {| ExtensionType := Some (Ptr Sample.int32) |} ]};
       proto_Unmarshal := Sample.Unmarshal;
       proto_Marshal := Sample.Marshal;
       gzip_NewReader := Sample.NewReader;
       ioutil_ReadAll := Sample.ReadAll;
       as_protoMessage := Sample.protoMessage;
       as_proto_Message := Sample.Message;
       fmt_Sprintf := Sample.Sprintf |}
    Sample.Foo 200 Sample.s0 =
  Done (Err (Errorf "failed to create message from type: %v"
               [ArgType Sample.int32])) Sample.s0.
Proof. vm_compute. reflexivity. Qed.
